(** * rsid-cli: the host-side faceprint database of [tools/rsid-cli/main.cc]

    Shallow embedding of the "server mode" part of the command line tool:
    the static map [s_user_faceprint_db], the enrollment callbacks
    [MyEnrollClbk] and [MyEnrollServerClbk], the authentication callback
    [FaceprintsAuthClbk] and the ['E'], ['A'], ['U'], ['D'] branches of
    [sample_loop].

    Conventions.
    - [std::set] and [std::map] are represented by their in-order traversal:
      a list kept strictly ascending for the container's comparison.
    - [std::cout] is a list of messages, one constructor per line the tool
      prints.
    - A callback that dereferences its [faceprints] pointer takes an
      [option]; dereferencing a null pointer is [None] (undefined
      behaviour), so every function that can do so returns an [option]. *)

From Stdlib Require Import ZArith List String Ascii Bool Lia Sorted.
From Stdlib Require Import OrderedTypeEx.
Import ListNotations.
Local Open Scope string_scope.
Local Open Scope Z_scope.
Local Open Scope list_scope.

Set Implicit Arguments.

(* ================================================================== *)
(** * Types declared in the RealSenseID headers *)

(** Modelled from the spec: the enumeration [RealSenseID::FacePose] is
    declared in a header that is not part of the sources at hand.  The
    spec gives the pose set as the fixed enumeration Center, Left, Right. *)
Inductive FacePose : Type := Center | Left | Right.

(** Modelled from the spec: the enumerators' order, Center first, then
    Left, then Right.  [std::set<FacePose>] orders its elements by
    [std::less<FacePose>], that is by this value. *)
Definition FacePose_value (pose : FacePose) : Z :=
  match pose with
  | Center => 0
  | Left => 1
  | Right => 2
  end.

(** [RealSenseID::EnrollStatus]: main.cc names [Success] and
    [CameraStarted]; every other enumerator is a [Failure] with a reason. *)
Inductive EnrollStatus : Type :=
| EnrollStatus_Success
| EnrollStatus_CameraStarted
| EnrollStatus_Failure (reason : nat).

(** [RealSenseID::AuthenticateStatus]: main.cc names [Success],
    [CameraStarted], [Forbidden] and [Reserved1]. *)
Inductive AuthenticateStatus : Type :=
| AuthenticateStatus_Success
| AuthenticateStatus_CameraStarted
| AuthenticateStatus_Forbidden
| AuthenticateStatus_Reserved1
| AuthenticateStatus_Failure (reason : nat).

(** [RealSenseID::Status], the value the blocking library calls return. *)
Inductive Status : Type :=
| Status_Ok
| Status_Error (code : nat).

(** [RealSenseID::Faceprints], with the five fields main.cc reads and
    writes.  The two descriptors are fixed-length arrays; [memcpy] over
    [sizeof] of the array copies the array as a whole. *)
Record Faceprints : Type := mkFaceprints {
  version : Z;
  numberOfDescriptors : Z;
  featuresType : Z;
  avgDescriptor : list Z;
  origDescriptor : list Z
}.

Definition set_version (v : Z) (fp : Faceprints) : Faceprints :=
  mkFaceprints v (numberOfDescriptors fp) (featuresType fp)
               (avgDescriptor fp) (origDescriptor fp).

Definition set_numberOfDescriptors (n : Z) (fp : Faceprints) : Faceprints :=
  mkFaceprints (version fp) n (featuresType fp)
               (avgDescriptor fp) (origDescriptor fp).

Definition set_featuresType (ft : Z) (fp : Faceprints) : Faceprints :=
  mkFaceprints (version fp) (numberOfDescriptors fp) ft
               (avgDescriptor fp) (origDescriptor fp).

Definition set_avgDescriptor (d : list Z) (fp : Faceprints) : Faceprints :=
  mkFaceprints (version fp) (numberOfDescriptors fp) (featuresType fp)
               d (origDescriptor fp).

Definition set_origDescriptor (d : list Z) (fp : Faceprints) : Faceprints :=
  mkFaceprints (version fp) (numberOfDescriptors fp) (featuresType fp)
               (avgDescriptor fp) d.

(** [RealSenseID::MatchResult], of which main.cc reads two flags. *)
Record MatchResult : Type := mkMatchResult {
  success : bool;
  should_update : bool
}.

(* ================================================================== *)
(** * [std::set<FacePose>] *)

Module StdSet.

Definition t : Type := list FacePose.

Definition less (a b : FacePose) : bool :=
  FacePose_value a <? FacePose_value b.

Fixpoint insert (x : FacePose) (s : t) : t :=
  match s with
  | [] => [x]
  | y :: s' =>
      if less x y then x :: s
      else if less y x then y :: insert x s'
      else s
  end.

(** The constructor from an initializer list inserts its elements in
    turn. *)
Definition of_initializer_list (l : list FacePose) : t :=
  fold_left (fun s x => insert x s) l [].

Fixpoint erase (x : FacePose) (s : t) : t :=
  match s with
  | [] => []
  | y :: s' =>
      if less x y then s
      else if less y x then y :: erase x s'
      else s'
  end.

Definition empty (s : t) : bool :=
  match s with
  | [] => true
  | _ :: _ => false
  end.

(** [*s.begin()], defined when [s] is not empty. *)
Definition begin (s : t) : option FacePose := hd_error s.

Definition size (s : t) : nat := List.length s.

End StdSet.

(* ================================================================== *)
(** * [std::map<std::string, V>] *)

Module StdMap.

(** [std::less<std::string>]: lexicographic comparison of the
    characters as unsigned bytes, a proper prefix being smaller. *)
Definition less (a b : string) : Prop := String.compare a b = Lt.

Section Value.
Variable V : Type.

Definition t : Type := list (string * V).

Definition keys (m : t) : list string := List.map fst m.

Definition size (m : t) : nat := List.length m.

Definition clear (m : t) : t := [].

Fixpoint find (k : string) (m : t) : option V :=
  match m with
  | [] => None
  | (k', v) :: m' =>
      match String.compare k k' with
      | Eq => Some v
      | Lt => None
      | Gt => find k m'
      end
  end.

(** [m[k] = f(m[k])]: [operator[]] finds the entry of [k], inserting a
    value-initialised one ([fresh]) when there is none, and the
    assignment through the returned reference rewrites it. *)
Fixpoint update (k : string) (f : V -> V) (fresh : V) (m : t) : t :=
  match m with
  | [] => [(k, f fresh)]
  | (k', v) :: m' =>
      match String.compare k k' with
      | Eq => (k', f v) :: m'
      | Lt => (k, f fresh) :: m
      | Gt => (k', v) :: update k f fresh m'
      end
  end.

(** [m.erase(k)]. *)
Fixpoint erase (k : string) (m : t) : t :=
  match m with
  | [] => []
  | (k', v) :: m' =>
      match String.compare k k' with
      | Eq => m'
      | Lt => m
      | Gt => (k', v) :: erase k m'
      end
  end.

(** [k] sorts before the first key of [m]. *)
Definition below (k : string) (m : t) : Prop :=
  match m with
  | [] => True
  | (k', _) :: _ => less k k'
  end.

(** The representation invariant: keys strictly ascending. *)
Fixpoint ok (m : t) : bool :=
  match m with
  | [] => true
  | (k, _) :: m' =>
      match m' with
      | [] => true
      | (k', _) :: _ =>
          match String.compare k k' with
          | Lt => ok m'
          | _ => false
          end
      end
  end.

End Value.

End StdMap.

(* ================================================================== *)
(** * Console output *)

Inductive Out : Type :=
| Out_Detected_Pose (pose : FacePose)
| Out_Please_Look_To_The (next_pose : FacePose)
| Out_Result (status : EnrollStatus)
| Out_Hint (hint : EnrollStatus)
| Out_enroll_on_result (status : EnrollStatus)
| Out_enroll_on_progress (pose : FacePose)
| Out_enroll_on_hint (hint : EnrollStatus)
| Out_auth_on_result (status : AuthenticateStatus)
| Out_auth_on_hint (hint : AuthenticateStatus)
| Out_ExtractFaceprints_failed (last : AuthenticateStatus)
| Out_Searching (n : nat)
| Out_Match_success (user_id : string)
| Out_Updated_avg_faceprint
| Out_Forbidden
| Out_Status (status : Status)
| Out_users (n : nat)
| Out_user (user_id : string)
| Out_Faceprints_deleted.

(* ================================================================== *)
(** * [MyEnrollClbk]: the pose guidance of device-side enrollment *)

Module MyEnrollClbk.

Record t : Type := mk { _poses_required : StdSet.t }.

Definition new : t :=
  mk (StdSet.of_initializer_list [Center; Left; Right]).

Definition OnProgress (pose : FacePose) (self : t) : t * list Out :=
  let required := StdSet.erase pose (_poses_required self) in
  (mk required,
   Out_Detected_Pose pose ::
     (if negb (StdSet.empty required) then
        match StdSet.begin required with
        | Some next_pose => [Out_Please_Look_To_The next_pose]
        | None => []
        end
      else [])).

Definition OnResult (status : EnrollStatus) (self : t) : t * list Out :=
  (self, [Out_Result status]).

Definition OnHint (hint : EnrollStatus) (self : t) : t * list Out :=
  (self, [Out_Hint hint]).

(** The callback object after the poses of [history] were reported, in
    that order, to a newly constructed one. *)
Definition after (history : list FacePose) : t :=
  fold_left (fun self pose => fst (OnProgress pose self)) history new.

(** The guidance lines among the printed ones. *)
Definition guidance (out : list Out) : list FacePose :=
  flat_map (fun o => match o with
                     | Out_Please_Look_To_The p => [p]
                     | _ => []
                     end) out.

End MyEnrollClbk.

(** The canonical order of the spec. *)
Definition canonical_poses : list FacePose := [Center; Left; Right].

Definition FacePose_eqb (a b : FacePose) : bool :=
  FacePose_value a =? FacePose_value b.

(* ================================================================== *)
(** * The faceprint database and the server-mode callbacks *)

(** [s_user_faceprint_db]. *)
Definition Db : Type := StdMap.t Faceprints.

(** The actual arguments of one call of
    [FaceAuthenticator::MatchFaceprints]. *)
Record MatchCall : Type := mkMatchCall {
  call_new : Faceprints;
  call_existing : Faceprints;
  call_updated : Faceprints
}.

(** What a piece of the program leaves behind: the database, the lines
    printed, and the calls of [MatchFaceprints] it made, in order. *)
Record Run : Type := mkRun {
  db_after : Db;
  printed : list Out;
  matched : list MatchCall
}.

(** Modelled from the spec: the callback protocol of
    [FaceAuthenticator::ExtractFaceprintsForEnroll], library code that is
    not part of the sources at hand.  It calls [OnProgress] and [OnHint]
    any number of times, then [OnResult] once, and returns a [Status]. *)
Inductive EnrollAdvisory : Type :=
| Enroll_Progress (pose : FacePose)
| Enroll_Hint (hint : EnrollStatus).

Record EnrollSession : Type := mkEnrollSession {
  enroll_advisories : list EnrollAdvisory;
  enroll_status : EnrollStatus;
  enroll_faceprints_ptr : option Faceprints;
  enroll_returns : Status
}.

(** Modelled from the spec: the callback protocol of
    [FaceAuthenticator::ExtractFaceprintsForAuth], of the same shape. *)
Record AuthSession : Type := mkAuthSession {
  auth_hints : list AuthenticateStatus;
  auth_status : AuthenticateStatus;
  auth_faceprints_ptr : option Faceprints;
  auth_returns : Status
}.

(** One line of input to [sample_loop], with what the device answers
    during the command.  [Key_device] stands for the keys whose branch
    talks to the device only, and for the keys without a branch. *)
Inductive Command : Type :=
| Key_E (user_id : string) (session : EnrollSession)
| Key_A (session : AuthSession)
| Key_U
| Key_D
| Key_q
| Key_device (key : ascii).

(** The call the loop of [FaceprintsAuthClbk::OnResult] makes for a
    stored entry. *)
Definition call_for (scanned : Faceprints) (iter : string * Faceprints)
  : MatchCall := mkMatchCall scanned (snd iter) (snd iter).

Definition Run_seq (r : Run) (k : Db -> option Run) : option Run :=
  match k (db_after r) with
  | None => None
  | Some r' =>
      Some (mkRun (db_after r') (printed r ++ printed r')
                  (matched r ++ matched r'))
  end.

Section Server.

(** [FaceAuthenticator::MatchFaceprints(new, existing, updated)]: the
    vendor's matcher, which returns a [MatchResult] and writes
    [updated] through its reference. *)
Variable MatchFaceprints :
  Faceprints -> Faceprints -> Faceprints -> MatchResult * Faceprints.

(** The value-initialised [Faceprints] that [operator[]] inserts for a
    key the map does not hold; its contents are fixed by Faceprints.h. *)
Variable value_initialized : Faceprints.

(** The matcher's verdict on a stored template, called the way the
    loop of [FaceprintsAuthClbk::OnResult] calls it. *)
Definition verdict (scanned existing : Faceprints) : MatchResult :=
  fst (MatchFaceprints scanned existing existing).

(** [MyEnrollServerClbk::OnResult]. *)
Definition MyEnrollServerClbk_OnResult (_user_id : string)
    (status : EnrollStatus) (faceprints : option Faceprints) (db : Db)
  : option Run :=
  match status with
  | EnrollStatus_Success =>
      match faceprints with
      | None => None
      | Some fp =>
          let db1 := StdMap.update _user_id
                       (set_version (version fp)) value_initialized db in
          let db2 := StdMap.update _user_id
                       (set_numberOfDescriptors (numberOfDescriptors fp))
                       value_initialized db1 in
          let db3 := StdMap.update _user_id
                       (set_avgDescriptor (avgDescriptor fp))
                       value_initialized db2 in
          let db4 := StdMap.update _user_id
                       (set_origDescriptor (avgDescriptor fp))
                       value_initialized db3 in
          Some (mkRun db4 [Out_enroll_on_result status] [])
      end
  | _ => Some (mkRun db [Out_enroll_on_result status] [])
  end.

(** The [for (auto& iter : s_user_faceprint_db)] loop of
    [FaceprintsAuthClbk::OnResult], over the entries still to visit. *)
Fixpoint FaceprintsAuthClbk_scan (scanned_faceprint : Faceprints)
    (entries : Db) : Run :=
  match entries with
  | [] => mkRun [] [] []
  | (user_id, second) :: rest =>
      let existing_faceprint := second in
      let updated_faceprint := existing_faceprint in
      let call := mkMatchCall scanned_faceprint existing_faceprint
                              updated_faceprint in
      let (match_, updated_faceprint') :=
        MatchFaceprints scanned_faceprint existing_faceprint
                        updated_faceprint in
      if success match_ then
        if should_update match_ then
          mkRun ((user_id, updated_faceprint') :: rest)
                [Out_Match_success user_id; Out_Updated_avg_faceprint]
                [call]
        else
          mkRun ((user_id, second) :: rest)
                [Out_Match_success user_id]
                [call]
      else
        let r := FaceprintsAuthClbk_scan scanned_faceprint rest in
        mkRun ((user_id, second) :: db_after r)
              (Out_Forbidden :: printed r)
              (call :: matched r)
  end.

(** [FaceprintsAuthClbk::OnResult]; [last] is the value of the static
    [s_last_auth_faceprint_status] the failure message prints. *)
Definition FaceprintsAuthClbk_OnResult (last : AuthenticateStatus)
    (status : AuthenticateStatus) (faceprints : option Faceprints)
    (db : Db) : option Run :=
  match status with
  | AuthenticateStatus_Success =>
      match faceprints with
      | None => None
      | Some fp =>
          let scanned_faceprint :=
            mkFaceprints (version fp) (numberOfDescriptors fp)
                         (featuresType fp) (avgDescriptor fp)
                         (origDescriptor fp) in
          let r := FaceprintsAuthClbk_scan scanned_faceprint db in
          Some (mkRun (db_after r)
                      (Out_auth_on_result status ::
                       Out_Searching (StdMap.size db) :: printed r)
                      (matched r))
      end
  | _ =>
      Some (mkRun db
                  [Out_auth_on_result status;
                   Out_ExtractFaceprints_failed last]
                  [])
  end.

Definition MyEnrollServerClbk_advisory (a : EnrollAdvisory) : Out :=
  match a with
  | Enroll_Progress pose => Out_enroll_on_progress pose
  | Enroll_Hint hint => Out_enroll_on_hint hint
  end.

(** [enroll_faceprints], once the authenticator is connected. *)
Definition enroll_faceprints (user_id : string) (session : EnrollSession)
    (db : Db) : option Run :=
  match MyEnrollServerClbk_OnResult user_id (enroll_status session)
          (enroll_faceprints_ptr session) db with
  | None => None
  | Some r =>
      Some (mkRun (db_after r)
                  (List.map MyEnrollServerClbk_advisory
                            (enroll_advisories session)
                   ++ printed r ++ [Out_Status (enroll_returns session)])
                  (matched r))
  end.

(** [authenticate_faceprints], once the authenticator is connected. *)
Definition authenticate_faceprints (session : AuthSession) (db : Db)
  : option Run :=
  let s_last_auth_faceprint_status := AuthenticateStatus_CameraStarted in
  match FaceprintsAuthClbk_OnResult s_last_auth_faceprint_status
          (auth_status session) (auth_faceprints_ptr session) db with
  | None => None
  | Some r =>
      Some (mkRun (db_after r)
                  (List.map Out_auth_on_hint (auth_hints session)
                   ++ printed r
                   ++ match auth_returns session with
                      | Status_Ok => []
                      | s => [Out_Status s]
                      end)
                  (matched r))
  end.

(** One turn of the [switch] in [sample_loop]; the menu and the output
    of the device commands are left out.  Every command is taken to
    reach its device: when a connection fails, [CreateAuthenticator] ends
    the process with [std::exit(1)], and the run of the program is the
    run of the commands before that one. *)
Definition sample_loop_case (c : Command) (db : Db) : option Run :=
  match c with
  | Key_E user_id session => enroll_faceprints user_id session db
  | Key_A session => authenticate_faceprints session db
  | Key_U =>
      Some (mkRun db
                  (Out_users (StdMap.size db)
                   :: List.map (fun iter => Out_user (fst iter)) db)
                  [])
  | Key_D => Some (mkRun (StdMap.clear db) [Out_Faceprints_deleted] [])
  | Key_q => Some (mkRun db [] [])
  | Key_device _ => Some (mkRun db [] [])
  end.

(** [sample_loop] over the lines typed so far: what the program has done
    when it has processed them.  ['q'] leaves the loop. *)
Fixpoint sample_loop (input : list Command) (db : Db) : option Run :=
  match input with
  | [] => Some (mkRun db [] [])
  | Key_q :: _ => Some (mkRun db [] [])
  | c :: input' =>
      match sample_loop_case c db with
      | None => None
      | Some r => Run_seq r (sample_loop input')
      end
  end.

End Server.

(** The user ids a listing printed. *)
Definition listed (out : list Out) : list string :=
  flat_map (fun o => match o with
                     | Out_user user_id => [user_id]
                     | _ => []
                     end) out.

(** The user ids reported as matched. *)
Definition match_successes (out : list Out) : list string :=
  flat_map (fun o => match o with
                     | Out_Match_success user_id => [user_id]
                     | _ => []
                     end) out.

(** The outcome of an authentication as the console shows it. *)
Inductive AuthOutcome : Type :=
| NoMatchFound
| Matched (user_id : string) (updated : bool).

Definition auth_outcome (out : list Out) : AuthOutcome :=
  match match_successes out with
  | [] => NoMatchFound
  | user_id :: _ =>
      Matched user_id
        (existsb (fun o => match o with
                           | Out_Updated_avg_faceprint => true
                           | _ => false
                           end) out)
  end.

(* ================================================================== *)
(** * The Template Store operation the tool does not have *)

Inductive StoreError : Type := KeyNotFound.

(** Modelled from the spec: [Remove(user_id)] of the Template Store,
    "fails with KeyNotFound if absent; otherwise deletes the entry".
    main.cc has no such operation (its only removal is [clear()]); this
    is the spec's operation over the map of the program, with
    [std::map::erase] as the deletion. *)
Definition Remove (user_id : string) (db : Db) : option StoreError * Db :=
  match StdMap.find user_id db with
  | None => (Some KeyNotFound, db)
  | Some _ => (None, StdMap.erase user_id db)
  end.

(* ================================================================== *)
(** * A matcher and a few templates to run the program on *)

Definition same_vector (a b : list Z) : bool :=
  (List.length a =? List.length b)%nat
  && forallb (fun p => fst p =? snd p) (combine a b).

(** A matcher that accepts a scan whose first feature is the first
    feature enrolled, asks for an update when the running average
    differs from the scan, and writes the scan as the new average. *)
Definition demo_MatchFaceprints (new existing updated : Faceprints)
  : MatchResult * Faceprints :=
  (mkMatchResult
     (hd 0 (avgDescriptor new) =? hd 0 (origDescriptor existing))
     (negb (same_vector (avgDescriptor new) (avgDescriptor existing))),
   set_avgDescriptor (avgDescriptor new) updated).

Definition demo_value_initialized : Faceprints :=
  mkFaceprints 0 0 0 [0; 0] [0; 0].

Definition demo_extracted (first second : Z) : Faceprints :=
  mkFaceprints 3 1 1 [first; second] [0; 0].

Definition demo_enroll (first second : Z) : EnrollSession :=
  mkEnrollSession [Enroll_Progress Center;
                   Enroll_Hint EnrollStatus_CameraStarted]
                  EnrollStatus_Success
                  (Some (demo_extracted first second)) Status_Ok.

Definition demo_auth (first second : Z) : AuthSession :=
  mkAuthSession [AuthenticateStatus_CameraStarted]
                AuthenticateStatus_Success
                (Some (demo_extracted first second)) Status_Ok.

(** Three stored users; the demo matcher accepts a scan starting with 7
    for both "bob" and "carol". *)
Definition demo_db : Db :=
  [("alice", mkFaceprints 3 1 0 [5; 1] [5; 1]);
   ("bob", mkFaceprints 3 1 0 [7; 2] [7; 2]);
   ("carol", mkFaceprints 3 1 0 [7; 3] [7; 3])].

(** "bob" enrolled before "alice", an authentication, "bob" enrolled
    again, and a listing. *)
Definition demo_input : list Command :=
  [Key_E "bob" (demo_enroll 7 2); Key_E "alice" (demo_enroll 5 1);
   Key_A (demo_auth 7 9); Key_E "bob" (demo_enroll 7 4); Key_U].

(** The oracle's promise of the spec: the template it writes keeps the
    original descriptor of the stored one. *)
Definition keeps_origDescriptor
    (Match : Faceprints -> Faceprints -> Faceprints
             -> MatchResult * Faceprints) : Prop :=
  forall new existing,
    origDescriptor (snd (Match new existing existing))
    = origDescriptor existing.

(** The protocol's promise: a successful result comes with faceprints. *)
Definition auth_session_valid (session : AuthSession) : Prop :=
  auth_status session = AuthenticateStatus_Success ->
  auth_faceprints_ptr session <> None.

(** Whether pose [q] was reported in [history]. *)
Definition observed (history : list FacePose) (q : FacePose) : bool :=
  existsb (FacePose_eqb q) history.

(* ================================================================== *)
(** * [do_enroll]: a device-side enrollment seen from its callback *)

(** The calls the library makes on the [MyEnrollClbk] object it is given,
    in the order it makes them. *)
Inductive EnrollCallback : Type :=
| Call_OnProgress (pose : FacePose)
| Call_OnHint (hint : EnrollStatus)
| Call_OnResult (status : EnrollStatus).

Definition MyEnrollClbk_call (c : EnrollCallback) (self : MyEnrollClbk.t)
  : MyEnrollClbk.t * list Out :=
  match c with
  | Call_OnProgress pose => MyEnrollClbk.OnProgress pose self
  | Call_OnHint hint => MyEnrollClbk.OnHint hint self
  | Call_OnResult status => MyEnrollClbk.OnResult status self
  end.

Fixpoint MyEnrollClbk_calls (calls : list EnrollCallback)
    (self : MyEnrollClbk.t) : MyEnrollClbk.t * list Out :=
  match calls with
  | [] => (self, [])
  | c :: calls' =>
      let (self', out) := MyEnrollClbk_call c self in
      let (self'', out') := MyEnrollClbk_calls calls' self' in
      (self'', out ++ out')
  end.

(** [do_enroll], once the authenticator is connected: [Enroll] drives a
    new [MyEnrollClbk] through [calls] and returns [status], which is
    printed unless it is [Ok]. *)
Definition do_enroll (calls : list EnrollCallback) (status : Status)
  : list Out :=
  snd (MyEnrollClbk_calls calls MyEnrollClbk.new)
  ++ match status with
     | Status_Ok => []
     | s => [Out_Status s]
     end.

(** The poses reported by [OnProgress] among [calls]. *)
Definition poses_of (calls : list EnrollCallback) : list FacePose :=
  flat_map (fun c => match c with
                     | Call_OnProgress pose => [pose]
                     | _ => []
                     end) calls.

(* ================================================================== *)
(** * [ping_device] *)

Inductive PingOut : Type :=
| Out_Failed_connecting (status : Status)
| Out_Ping (number : Z) (status : Status) (elapsed_ms : Z)
| Out_Ping_error.

(** The [for] loop of [ping_device] from counter [i] with [todo]
    iterations to go; [Ping i] is the status the device answers to the
    call made at counter [i] and the round trip time measured. *)
Fixpoint ping_loop (Ping : nat -> Status * Z) (i todo : nat)
  : list PingOut :=
  match todo with
  | O => []
  | S todo' =>
      let (status, elapsed_ms) := Ping i in
      Out_Ping (Z.of_nat i + 1) status elapsed_ms
      :: match status with
         | Status_Ok => ping_loop Ping (S i) todo'
         | _ => [Out_Ping_error]
         end
  end.

Definition ping_device (connect_status : Status)
    (Ping : nat -> Status * Z) (iters : Z) : list PingOut :=
  if iters <? 1 then []
  else
    match connect_status with
    | Status_Ok => ping_loop Ping 0 (Z.to_nat iters)
    | _ => [Out_Failed_connecting connect_status]
    end.

(** The pings a run of [ping_device] printed. *)
Definition pings (out : list PingOut) : list PingOut :=
  filter (fun o => match o with
                   | Out_Ping _ _ _ => true
                   | _ => false
                   end) out.

(** The line of a ping that went well. *)
Definition ping_ok_line (Ping : nat -> Status * Z) (i : nat) : PingOut :=
  Out_Ping (Z.of_nat i + 1) Status_Ok (snd (Ping i)).

(* ================================================================== *)
(** * The ['s'] branch of [sample_loop] *)

Inductive SecurityLevel : Type :=
| SecurityLevel_High
| SecurityLevel_Medium
| SecurityLevel_RecognitionOnly.

Inductive CameraRotation : Type :=
| Rotation_0_Deg
| Rotation_180_Deg.

(** [RealSenseID::DeviceConfig], the two fields the branch assigns. *)
Record DeviceConfig : Type := mkDeviceConfig {
  camera_rotation : CameraRotation;
  security_level : SecurityLevel
}.

(** [hay.find(needle)]: the first position at which [needle] occurs in
    [hay], or [npos] ([None]). *)
Fixpoint string_find (needle hay : string) : option nat :=
  if String.prefix needle hay then Some 0%nat
  else
    match hay with
    | EmptyString => None
    | String _ hay' => option_map S (string_find needle hay')
    end.

(** The configuration the ['s'] branch hands to [set_device_config] for
    the two lines typed. *)
Definition sample_loop_case_s (sec_level rot_level : string)
  : DeviceConfig :=
  let config := mkDeviceConfig Rotation_0_Deg SecurityLevel_High in
  let config :=
    match string_find "med" sec_level with
    | Some _ =>
        mkDeviceConfig (camera_rotation config) SecurityLevel_Medium
    | None =>
        match string_find "rec" sec_level with
        | Some _ =>
            mkDeviceConfig (camera_rotation config)
                           SecurityLevel_RecognitionOnly
        | None => config
        end
    end in
  match string_find "180" rot_level with
  | Some _ => mkDeviceConfig Rotation_180_Deg (security_level config)
  | None => config
  end.

(** [needle] occurs somewhere in [hay]. *)
Definition occurs (needle hay : string) : Prop :=
  exists pre post, hay = (pre ++ needle ++ post)%string.

(* ================================================================== *)
(** * [sample_loop]: from the lines typed to the calls made *)

(** What [std::stoi] makes of a line: a value, or one of its two
    exceptions. *)
Inductive StoiResult : Type :=
| Stoi_value (z : Z)
| Stoi_invalid_argument
| Stoi_out_of_range.

(** A call [sample_loop] makes once it has read what the call needs. *)
Inductive Request : Type :=
| Req_do_enroll (user_id : string)
| Req_enroll_faceprints (user_id : string)
| Req_set_device_config (config : DeviceConfig)
| Req_ping_device (iters : Z)
| Req_key (key : ascii).

(** Where [sample_loop] stands between two lines: at the menu, inside
    one of the prompts of a branch, or gone (['q'] was typed, or an
    exception escaped). *)
Inductive Reading : Type :=
| At_menu
| Want_user_id (server_mode : bool)
| Want_sec_level
| Want_rot_level (sec_level : string)
| Want_iters
| Has_quit
| Has_terminated.

(** [line.c_str()] read back as a C string, the way [do_enroll] and the
    constructor of [MyEnrollServerClbk] receive a user id: the characters
    of [line] before its first NUL byte. *)
Fixpoint c_str (line : string) : string :=
  match line with
  | EmptyString => EmptyString
  | String c line' =>
      if Ascii.eqb c Ascii.zero then EmptyString
      else String c (c_str line')
  end.

(** The first character of [line] is a NUL byte. *)
Definition starts_with_NUL (line : string) : bool :=
  match line with
  | EmptyString => false
  | String c _ => Ascii.eqb c Ascii.zero
  end.

Section Reader.

(** [std::stoi], and whether the tool was built with [RSID_SECURE] and
    with [RSID_PREVIEW]. *)
Variable stoi : string -> StoiResult.
Variable RSID_SECURE : bool.
Variable RSID_PREVIEW : bool.

(** The [switch] on the key typed at the menu. *)
Definition sample_loop_switch (key : ascii) : Reading * list Request :=
  match key with
  | "e"%char => (Want_user_id false, [])
  | "E"%char => (Want_user_id true, [])
  | "s"%char => (Want_sec_level, [])
  | "x"%char => (Want_iters, [])
  | "q"%char => (Has_quit, [])
  | "a"%char | "f"%char | "d"%char | "g"%char | "u"%char | "n"%char
  | "b"%char | "v"%char | "A"%char | "U"%char | "D"%char =>
      (At_menu, [Req_key key])
  | "p"%char | "i"%char =>
      (At_menu, if RSID_SECURE then [Req_key key] else [])
  | "c"%char => (At_menu, if RSID_PREVIEW then [Req_key key] else [])
  | _ => (At_menu, [])
  end.

(** What one more line does. *)
Definition read_line (state : Reading) (line : string)
  : Reading * list Request :=
  match state with
  | At_menu =>
      match line with
      | String key EmptyString => sample_loop_switch key
      | _ => (At_menu, [])
      end
  | Want_user_id server_mode =>
      match line with
      | EmptyString => (Want_user_id server_mode, [])
      | _ =>
          (At_menu,
           [if server_mode then Req_enroll_faceprints (c_str line)
            else Req_do_enroll (c_str line)])
      end
  | Want_sec_level => (Want_rot_level line, [])
  | Want_rot_level sec_level =>
      (At_menu, [Req_set_device_config (sample_loop_case_s sec_level line)])
  | Want_iters =>
      match stoi line with
      | Stoi_value iters =>
          if iters <? 0 then (Want_iters, [])
          else (At_menu, [Req_ping_device iters])
      | Stoi_invalid_argument => (Want_iters, [])
      | Stoi_out_of_range => (Has_terminated, [])
      end
  | Has_quit => (Has_quit, [])
  | Has_terminated => (Has_terminated, [])
  end.

(** The calls made, in order, once [lines] have been typed. *)
Fixpoint read_lines (state : Reading) (lines : list string)
  : Reading * list Request :=
  match lines with
  | [] => (state, [])
  | line :: lines' =>
      let (state', requests) := read_line state line in
      let (state'', requests') := read_lines state' lines' in
      (state'', requests ++ requests')
  end.

End Reader.

(** The commands on the faceprint database that the calls amount to,
    given what the device does during each extraction, in order. *)
Fixpoint commands_of (requests : list Request)
    (enrollments : list EnrollSession) (authentications : list AuthSession)
  : list Command :=
  match requests with
  | [] => []
  | Req_enroll_faceprints user_id :: requests' =>
      match enrollments with
      | session :: enrollments' =>
          Key_E user_id session
          :: commands_of requests' enrollments' authentications
      | [] => []
      end
  | Req_key "A"%char :: requests' =>
      match authentications with
      | session :: authentications' =>
          Key_A session :: commands_of requests' enrollments authentications'
      | [] => []
      end
  | Req_key "U"%char :: requests' =>
      Key_U :: commands_of requests' enrollments authentications
  | Req_key "D"%char :: requests' =>
      Key_D :: commands_of requests' enrollments authentications
  | Req_key key :: requests' =>
      Key_device key :: commands_of requests' enrollments authentications
  | Req_do_enroll _ :: requests' =>
      Key_device "e"%char
      :: commands_of requests' enrollments authentications
  | Req_set_device_config _ :: requests' =>
      Key_device "s"%char
      :: commands_of requests' enrollments authentications
  | Req_ping_device _ :: requests' =>
      Key_device "x"%char
      :: commands_of requests' enrollments authentications
  end.

(** The user id a call enrolls, if it enrolls one. *)
Definition request_user_id (request : Request) : option string :=
  match request with
  | Req_do_enroll user_id | Req_enroll_faceprints user_id => Some user_id
  | _ => None
  end.

(** A line-based stand-in for [std::stoi]: digits 0 to 9 of a one
    character line. *)
Definition demo_stoi (line : string) : StoiResult :=
  match line with
  | String c EmptyString =>
      let n := nat_of_ascii c in
      if ((48 <=? n) && (n <=? 57))%nat then Stoi_value (Z.of_nat n - 48)
      else Stoi_invalid_argument
  | _ => Stoi_invalid_argument
  end.

(* ================================================================== *)
(** * Vocabulary for the facts about the database *)

(** What a successful enrollment result with payload [fp] makes of the
    entry [previous] of its user id. *)
Definition enrolled (fp previous : Faceprints) : Faceprints :=
  mkFaceprints (version fp) (numberOfDescriptors fp)
               (featuresType previous)
               (avgDescriptor fp) (avgDescriptor fp).

Definition is_Key_q (c : Command) : bool :=
  match c with
  | Key_q => true
  | _ => false
  end.

Definition is_Key_D (c : Command) : bool :=
  match c with
  | Key_D => true
  | _ => false
  end.

(** Command [c] is an enrollment of [user_id]. *)
Definition enrolls (user_id : string) (c : Command) : bool :=
  match c with
  | Key_E u _ => String.eqb u user_id
  | _ => false
  end.

(** The library keeps its promise during command [c]: a [Success] comes
    with faceprints. *)
Definition command_valid (c : Command) : bool :=
  match c with
  | Key_E _ session =>
      match enroll_status session, enroll_faceprints_ptr session with
      | EnrollStatus_Success, None => false
      | _, _ => true
      end
  | Key_A session =>
      match auth_status session, auth_faceprints_ptr session with
      | AuthenticateStatus_Success, None => false
      | _, _ => true
      end
  | _ => true
  end.

(** The matcher's updated template keeps the [featuresType] of the
    stored one. *)
Definition keeps_featuresType
    (Match : Faceprints -> Faceprints -> Faceprints
             -> MatchResult * Faceprints) : Prop :=
  forall new existing,
    featuresType (snd (Match new existing existing))
    = featuresType existing.

(** The lines that give the matcher's verdict on one entry. *)
Definition verdict_lines (out : list Out) : list Out :=
  filter (fun o => match o with
                   | Out_Forbidden | Out_Match_success _ => true
                   | _ => false
                   end) out.

(** A matcher that accepts like the demo matcher and never asks for an
    update. *)
Definition frozen_MatchFaceprints (new existing updated : Faceprints)
  : MatchResult * Faceprints :=
  (mkMatchResult
     (hd 0 (avgDescriptor new) =? hd 0 (origDescriptor existing)) false,
   updated).

(** A device that answers the third ping with an error. *)
Definition demo_Ping (i : nat) : Status * Z :=
  (if (i =? 2)%nat then Status_Error 1 else Status_Ok, Z.of_nat i + 3).

(* ================================================================== *)
(** * Facts about the pose guidance *)

Lemma FacePose_eqb_eq (a b : FacePose) : FacePose_eqb a b = true <-> a = b.
Proof.
  destruct a, b; cbv [FacePose_eqb FacePose_value Z.eqb];
    split; intro H; try reflexivity; discriminate.
Qed.

Lemma observed_In (history : list FacePose) (q : FacePose) :
  observed history q = true <-> In q history.
Proof.
  unfold observed. rewrite existsb_exists. split.
  - intros [x [Hin Heq]]. apply FacePose_eqb_eq in Heq. now subst.
  - intro Hin. exists q. split; [assumption | now apply FacePose_eqb_eq].
Qed.

(** Erasing from a subset of the canonical list, given by its
    characteristic function, is filtering once more. *)
Lemma erase_filter (f : FacePose -> bool) (p : FacePose) :
  StdSet.erase p (filter f canonical_poses)
  = filter (fun q => f q && negb (FacePose_eqb q p)) canonical_poses.
Proof.
  unfold canonical_poses; simpl.
  destruct (f Center), (f Left), (f Right), p; reflexivity.
Qed.

Lemma fold_OnProgress_required (history : list FacePose) :
  forall f : FacePose -> bool,
    MyEnrollClbk._poses_required
      (fold_left (fun self pose => fst (MyEnrollClbk.OnProgress pose self))
                 history (MyEnrollClbk.mk (filter f canonical_poses)))
    = filter (fun q => f q && negb (observed history q)) canonical_poses.
Proof.
  induction history as [| p history IH]; intro f; cbn [fold_left].
  - cbn [MyEnrollClbk._poses_required]. apply filter_ext. intro q.
    unfold observed; simpl. now rewrite andb_true_r.
  - unfold MyEnrollClbk.OnProgress at 2.
    cbn [fst MyEnrollClbk._poses_required].
    rewrite erase_filter, IH. apply filter_ext. intro q.
    unfold observed; cbn [existsb]. rewrite negb_orb. now rewrite andb_assoc.
Qed.

(** The poses still required are the canonical ones not seen so far. *)
Lemma after_required (history : list FacePose) :
  MyEnrollClbk._poses_required (MyEnrollClbk.after history)
  = filter (fun q => negb (observed history q)) canonical_poses.
Proof.
  unfold MyEnrollClbk.after.
  change MyEnrollClbk.new
    with (MyEnrollClbk.mk (filter (fun _ => true) canonical_poses)).
  now rewrite fold_OnProgress_required.
Qed.

Lemma after_snoc (history : list FacePose) (pose : FacePose) :
  MyEnrollClbk.after (history ++ [pose])
  = fst (MyEnrollClbk.OnProgress pose (MyEnrollClbk.after history)).
Proof. unfold MyEnrollClbk.after. now rewrite fold_left_app. Qed.

Lemma all_poses_iff (P : FacePose -> Prop) :
  (forall q, P q) <-> P Center /\ P Left /\ P Right.
Proof.
  split.
  - intro H. repeat split; apply H.
  - intros [HC [HL HR]] q. destruct q; assumption.
Qed.

Lemma required_empty_iff (history : list FacePose) :
  MyEnrollClbk._poses_required (MyEnrollClbk.after history) = []
  <-> forall q, In q history.
Proof.
  rewrite after_required, all_poses_iff.
  rewrite <- !observed_In. unfold canonical_poses; simpl.
  destruct (observed history Center), (observed history Left),
    (observed history Right); simpl;
    split; intro H; try discriminate; try reflexivity;
    try (repeat split; reflexivity);
    destruct H as [HC [HL HR]]; discriminate.
Qed.

(** C6.  The pose guidance of [MyEnrollClbk]: a new callback requires
    Center, Left and Right; [OnProgress(pose)] removes [pose] from the
    required set and nothing else, leaves the set as it is when [pose] is
    not in it, never grows it, leaves it empty exactly when all three
    poses have been reported, and prints one guidance line naming the
    first pose of Center, Left, Right still required, or none when the
    set is empty. *)
Theorem C6_pose_guidance :
  forall (history : list FacePose) (pose : FacePose),
    let self := MyEnrollClbk.after history in
    let required := MyEnrollClbk._poses_required self in
    let required' :=
      MyEnrollClbk._poses_required (fst (MyEnrollClbk.OnProgress pose self)) in
    let out := snd (MyEnrollClbk.OnProgress pose self) in
    MyEnrollClbk._poses_required MyEnrollClbk.new = [Center; Left; Right]
    /\ (forall q, In q required' <-> In q required /\ q <> pose)
    /\ (~ In pose required -> required' = required)
    /\ (incl required' required
        /\ (StdSet.size required' <= StdSet.size required)%nat)
    /\ (required' = [] <-> forall q, In q (history ++ [pose]))
    /\ (required' <> [] ->
        exists next_pose,
          MyEnrollClbk.guidance out = [next_pose]
          /\ List.find (fun q => existsb (FacePose_eqb q) required')
                       canonical_poses = Some next_pose)
    /\ (required' = [] -> MyEnrollClbk.guidance out = []).
Proof.
  intros history pose self required required' out.
  assert (Hempty : required' = [] <-> forall q, In q (history ++ [pose])).
  { unfold required', self. rewrite <- after_snoc. apply required_empty_iff. }
  split; [reflexivity |].
  split; [| split; [| split; [| split; [exact Hempty |]]]];
    clear Hempty; subst out required' required self;
    unfold MyEnrollClbk.OnProgress; cbn [fst snd MyEnrollClbk._poses_required];
    rewrite after_required;
    generalize (fun q => negb (observed history q)); intro f;
    unfold canonical_poses; simpl filter.
  - intro q.
    destruct (f Center), (f Left), (f Right), pose, q; simpl;
      intuition congruence.
  - destruct (f Center), (f Left), (f Right), pose; simpl;
      intuition congruence.
  - split.
    + intro q.
      destruct (f Center), (f Left), (f Right), pose, q; simpl;
        intuition congruence.
    + destruct (f Center), (f Left), (f Right), pose; simpl; lia.
  - split.
    + destruct (f Center), (f Left), (f Right), pose; simpl; intro H;
        try (exfalso; apply H; reflexivity); eexists; split; reflexivity.
    + destruct (f Center), (f Left), (f Right), pose; simpl; intro H;
        try discriminate; reflexivity.
Qed.

(* ================================================================== *)
(** * Facts about [std::map] *)

Lemma compare_refl (k : string) : String.compare k k = Eq.
Proof. change (String_as_OT.cmp k k = Eq). now apply String_as_OT.cmp_eq. Qed.

Lemma compare_Gt_Lt (a b : string) :
  String.compare a b = Gt -> String.compare b a = Lt.
Proof.
  intro H. rewrite String.compare_antisym, H. reflexivity.
Qed.

Lemma less_trans (a b c : string) :
  StdMap.less a b -> StdMap.less b c -> StdMap.less a c.
Proof.
  unfold StdMap.less. intros Hab Hbc.
  apply String_as_OT.cmp_lt. apply String_as_OT.cmp_lt in Hab, Hbc.
  eapply String_as_OT.lt_trans; eassumption.
Qed.

Lemma less_irrefl (a : string) : ~ StdMap.less a a.
Proof. unfold StdMap.less. rewrite compare_refl. discriminate. Qed.

Section MapFacts.
Variable V : Type.
Implicit Types (m : StdMap.t V) (k : string) (v : V).

Lemma ok_cons k v m :
  StdMap.ok ((k, v) :: m) = true <-> StdMap.below k m /\ StdMap.ok m = true.
Proof.
  destruct m as [| [k' v'] m']; cbn [StdMap.ok StdMap.below].
  - tauto.
  - unfold StdMap.less. destruct (String.compare k k'); split;
      intros H; try discriminate; try tauto; destruct H; discriminate.
Qed.

Lemma below_trans k k' m :
  StdMap.less k k' -> StdMap.below k' m -> StdMap.below k m.
Proof.
  destruct m as [| [k'' v''] m']; cbn [StdMap.below]; [tauto |].
  intros. eapply less_trans; eassumption.
Qed.

Lemma find_below k m :
  StdMap.below k m -> StdMap.find k m = None.
Proof.
  destruct m as [| [k' v'] m']; cbn [StdMap.below StdMap.find]; [reflexivity |].
  unfold StdMap.less. now intros ->.
Qed.

Lemma find_update_same k (f : V -> V) (fresh : V) m :
  StdMap.find k (StdMap.update k f fresh m)
  = Some (f (match StdMap.find k m with
             | Some v => v
             | None => fresh
             end)).
Proof.
  induction m as [| [k' v'] m' IH]; cbn [StdMap.update StdMap.find].
  - now rewrite compare_refl.
  - destruct (String.compare k k') eqn:E; cbn [StdMap.find].
    + now rewrite E.
    + now rewrite compare_refl.
    + now rewrite E.
Qed.

Lemma keys_update_present k (f : V -> V) (fresh : V) m :
  StdMap.find k m <> None ->
  StdMap.keys (StdMap.update k f fresh m) = StdMap.keys m.
Proof.
  induction m as [| [k' v'] m' IH]; cbn [StdMap.update StdMap.find].
  - congruence.
  - destruct (String.compare k k') eqn:E; intro H.
    + reflexivity.
    + congruence.
    + unfold StdMap.keys in *. cbn [List.map]. now rewrite IH.
Qed.

Lemma below_update k' k (f : V -> V) (fresh : V) m :
  StdMap.less k' k -> StdMap.below k' m ->
  StdMap.below k' (StdMap.update k f fresh m).
Proof.
  destruct m as [| [k'' v''] m']; cbn [StdMap.update StdMap.below]; [tauto |].
  destruct (String.compare k k''); cbn [StdMap.below]; tauto.
Qed.

Lemma ok_update k (f : V -> V) (fresh : V) m :
  StdMap.ok m = true -> StdMap.ok (StdMap.update k f fresh m) = true.
Proof.
  induction m as [| [k' v'] m' IH]; cbn [StdMap.update].
  - reflexivity.
  - intro Hok. pose proof Hok as Hok'. apply ok_cons in Hok' as [Hb Hm'].
    destruct (String.compare k k') eqn:E.
    + apply ok_cons. now split.
    + apply ok_cons. split; [exact E | exact Hok].
    + apply ok_cons. split.
      * apply below_update; [now apply compare_Gt_Lt | exact Hb].
      * now apply IH.
Qed.

Lemma ok_keys m (m2 : StdMap.t V) :
  StdMap.keys m = StdMap.keys m2 -> StdMap.ok m = StdMap.ok m2.
Proof.
  revert m2. unfold StdMap.keys.
  induction m as [| [k v] m IH]; intros [| [k2 v2] m2] H;
    try discriminate; [reflexivity |].
  cbn [List.map fst] in H. injection H as -> Hk.
  specialize (IH m2 Hk).
  destruct m as [| [k' v'] m'], m2 as [| [k2' v2'] m2'];
    try discriminate; [reflexivity |].
  cbn [List.map fst] in Hk. injection Hk as -> Hk.
  cbn [StdMap.ok] in *. now rewrite IH.
Qed.

Lemma ok_sorted m :
  StdMap.ok m = true -> StronglySorted StdMap.less (StdMap.keys m).
Proof.
  intro Hok. apply Sorted_StronglySorted.
  - intros a b c. apply less_trans.
  - induction m as [| [k v] m IH]; cbn; [constructor |].
    apply ok_cons in Hok as [Hb Hm]. constructor; [now apply IH |].
    destruct m as [| [k' v'] m']; cbn; constructor. exact Hb.
Qed.

Lemma sorted_NoDup (l : list string) :
  StronglySorted StdMap.less l -> NoDup l.
Proof.
  induction 1 as [| a l Hs IH Hall]; constructor; [| exact IH].
  intro Hin. rewrite Forall_forall in Hall.
  exact (less_irrefl (Hall a Hin)).
Qed.

Lemma find_erase_same k m :
  StdMap.ok m = true -> StdMap.find k (StdMap.erase k m) = None.
Proof.
  induction m as [| [k' v'] m' IH]; cbn [StdMap.erase]; [reflexivity |].
  intro Hok. apply ok_cons in Hok as [Hb Hm'].
  destruct (String.compare k k') eqn:E.
  - apply String.compare_eq_iff in E. subst k'. now apply find_below.
  - cbn [StdMap.find]. now rewrite E.
  - cbn [StdMap.find]. rewrite E. now apply IH.
Qed.

Lemma find_erase_other k k2 m :
  StdMap.ok m = true -> k2 <> k ->
  StdMap.find k2 (StdMap.erase k m) = StdMap.find k2 m.
Proof.
  induction m as [| [k' v'] m' IH]; cbn [StdMap.erase]; [reflexivity |].
  intros Hok Hne. apply ok_cons in Hok as [Hb Hm'].
  destruct (String.compare k k') eqn:E.
  - apply String.compare_eq_iff in E. subst k'.
    cbn [StdMap.find]. destruct (String.compare k2 k) eqn:E2.
    + apply String.compare_eq_iff in E2. contradiction.
    + apply find_below. eapply below_trans; [exact E2 | exact Hb].
    + reflexivity.
  - reflexivity.
  - cbn [StdMap.find]. destruct (String.compare k2 k'); auto.
Qed.

Lemma size_erase k m :
  StdMap.find k m <> None ->
  S (StdMap.size (StdMap.erase k m)) = StdMap.size m.
Proof.
  unfold StdMap.size.
  induction m as [| [k' v'] m' IH]; cbn [StdMap.erase StdMap.find].
  - congruence.
  - destruct (String.compare k k') eqn:E; intro H.
    + reflexivity.
    + congruence.
    + cbn [List.length]. now rewrite IH.
Qed.

Lemma ok_erase k m :
  StdMap.ok m = true -> StdMap.ok (StdMap.erase k m) = true.
Proof.
  induction m as [| [k' v'] m' IH]; cbn [StdMap.erase]; [reflexivity |].
  intro Hok. pose proof Hok as Hok'. apply ok_cons in Hok' as [Hb Hm'].
  destruct (String.compare k k') eqn:E; [exact Hm' | exact Hok |].
  apply ok_cons. split; [| now apply IH].
  destruct m' as [| [k'' v''] m'']; cbn [StdMap.erase]; [exact I |].
  cbn [StdMap.below] in Hb.
  destruct (String.compare k k'') eqn:E2; cbn [StdMap.below]; try exact Hb.
  apply ok_cons in Hm' as [Hb' _]. eapply below_trans; eassumption.
Qed.

End MapFacts.

(* ================================================================== *)
(** * Facts about the server-mode callbacks *)

Lemma Faceprints_copy (fp : Faceprints) :
  mkFaceprints (version fp) (numberOfDescriptors fp) (featuresType fp)
               (avgDescriptor fp) (origDescriptor fp) = fp.
Proof. now destruct fp. Qed.

Section ServerFacts.

Variable MatchFaceprints :
  Faceprints -> Faceprints -> Faceprints -> MatchResult * Faceprints.
Variable value_initialized : Faceprints.

Local Abbreviation scan := (FaceprintsAuthClbk_scan MatchFaceprints).
Local Abbreviation auth_OnResult :=
  (FaceprintsAuthClbk_OnResult MatchFaceprints).
Local Abbreviation enroll_OnResult :=
  (MyEnrollServerClbk_OnResult value_initialized).

Local Abbreviation verdict_of := (verdict MatchFaceprints).

Lemma scan_rejected (scanned : Faceprints) (db : Db) :
  (forall iter, In iter db ->
                success (verdict_of scanned (snd iter)) = false) ->
  scan scanned db
  = mkRun db (repeat Out_Forbidden (List.length db))
          (List.map (call_for scanned) db).
Proof.
  induction db as [| [user_id second] rest IH]; intro Hrej;
    cbn [FaceprintsAuthClbk_scan].
  - reflexivity.
  - pose proof (Hrej (user_id, second) (or_introl eq_refl)) as Hhd.
    unfold verdict in Hhd. cbn [snd] in Hhd.
    destruct (MatchFaceprints scanned second second) as [m upd].
    cbn [fst] in Hhd. rewrite Hhd.
    rewrite IH by (intros iter Hin; apply Hrej; now right).
    reflexivity.
Qed.

Lemma scan_first_hit (scanned : Faceprints) (before after : Db)
    (user_id : string) (second : Faceprints) :
  (forall iter, In iter before ->
                success (verdict_of scanned (snd iter)) = false) ->
  success (verdict_of scanned second) = true ->
  scan scanned (before ++ (user_id, second) :: after)
  = let (m, upd) := MatchFaceprints scanned second second in
    mkRun (before
           ++ (user_id, if should_update m then upd else second) :: after)
          (repeat Out_Forbidden (List.length before)
           ++ Out_Match_success user_id
              :: (if should_update m
                  then [Out_Updated_avg_faceprint] else []))
          (List.map (call_for scanned) (before ++ [(user_id, second)])).
Proof.
  intros Hrej Hhit.
  induction before as [| [k v] before IH]; cbn [FaceprintsAuthClbk_scan app].
  - unfold verdict in Hhit.
    destruct (MatchFaceprints scanned second second) as [m upd].
    cbn [fst] in Hhit. rewrite Hhit.
    destruct (should_update m); reflexivity.
  - pose proof (Hrej (k, v) (or_introl eq_refl)) as Hhd.
    unfold verdict in Hhd. cbn [snd] in Hhd.
    destruct (MatchFaceprints scanned v v) as [m0 upd0].
    cbn [fst] in Hhd. rewrite Hhd.
    rewrite IH by (intros iter Hin; apply Hrej; now right).
    destruct (MatchFaceprints scanned second second) as [m upd].
    reflexivity.
Qed.

Lemma scan_keys (scanned : Faceprints) (db : Db) :
  StdMap.keys (db_after (scan scanned db)) = StdMap.keys db.
Proof.
  unfold StdMap.keys.
  induction db as [| [user_id second] rest IH];
    cbn [FaceprintsAuthClbk_scan]; [reflexivity |].
  destruct (MatchFaceprints scanned second second) as [m upd].
  destruct (success m); [destruct (should_update m); reflexivity |].
  cbn [db_after List.map fst]. now rewrite IH.
Qed.

(** The loop calls the matcher on an initial segment of the map, in the
    order of the map, and prints one verdict line for each call: on the
    whole map when the matcher rejects every entry, and otherwise on the
    entries up to and including the first one it accepts. *)
Lemma scan_visits (scanned : Faceprints) (db : Db) :
  exists n,
    matched (scan scanned db)
    = List.map (call_for scanned) (firstn n db)
    /\ List.length (verdict_lines (printed (scan scanned db))) = n
    /\ (List.length (match_successes (printed (scan scanned db))) <= 1)%nat
    /\ ((forall iter, In iter db ->
                      success (verdict_of scanned (snd iter)) = false)
        /\ n = List.length db
        \/ exists before user_id second after,
             db = before ++ (user_id, second) :: after
             /\ (forall iter, In iter before ->
                              success (verdict_of scanned (snd iter)) = false)
             /\ success (verdict_of scanned second) = true
             /\ n = S (List.length before)).
Proof.
  induction db as [| [user_id second] rest [n [IH1 [IH2 [IH3 IH4]]]]];
    cbn [FaceprintsAuthClbk_scan].
  - exists 0%nat. repeat split; try (cbn; lia).
    left. split; [intros iter [] | reflexivity].
  - unfold verdict in *.
    destruct (MatchFaceprints scanned second second) as [m upd] eqn:E.
    destruct (success m) eqn:Hs.
    + exists 1%nat.
      split; [destruct (should_update m); reflexivity |].
      split; [destruct (should_update m); reflexivity |].
      split; [destruct (should_update m); cbn; lia |].
      right. exists [], user_id, second, rest.
      split; [reflexivity |]. split; [intros iter [] |].
      split; [now rewrite E | reflexivity].
    + exists (S n). cbn [matched printed firstn List.map].
      split; [now rewrite IH1 |].
      split; [cbn; now rewrite <- IH2 |].
      split; [exact IH3 |].
      destruct IH4
        as [[Hall Hn] | [before [u [t [after [Hdb [Hrej [Hacc Hn]]]]]]]].
      * left. split; [| cbn; now rewrite Hn].
        intros iter [<- | Hin]; [cbn [snd]; now rewrite E | now apply Hall].
      * right. exists ((user_id, second) :: before), u, t, after.
        split; [cbn; now rewrite Hdb |].
        split; [| split; [exact Hacc | cbn; now rewrite Hn]].
        intros iter [<- | Hin]; [cbn [snd]; now rewrite E | now apply Hrej].
Qed.

Lemma scan_find_origDescriptor (scanned : Faceprints) (db : Db) :
  keeps_origDescriptor MatchFaceprints ->
  forall user_id,
    option_map origDescriptor
               (StdMap.find user_id (db_after (scan scanned db)))
    = option_map origDescriptor (StdMap.find user_id db).
Proof.
  intros Hkeep user_id.
  induction db as [| [k second] rest IH];
    cbn [FaceprintsAuthClbk_scan]; [reflexivity |].
  pose proof (Hkeep scanned second) as Hk.
  destruct (MatchFaceprints scanned second second) as [m upd].
  cbn [snd] in Hk.
  destruct (success m); [destruct (should_update m) |];
    cbn [db_after StdMap.find];
    destruct (String.compare user_id k); cbn [option_map];
    try reflexivity; try exact IH.
  now rewrite Hk.
Qed.

Lemma find_middle (before after : Db) (k : string) (v : Faceprints) :
  StdMap.ok (before ++ (k, v) :: after) = true ->
  StdMap.find k (before ++ (k, v) :: after) = Some v.
Proof.
  induction before as [| [k' v'] before IH]; cbn [app StdMap.find].
  - now rewrite compare_refl.
  - intro Hok. pose proof (ok_sorted _ Hok) as Hs.
    cbn in Hs. apply StronglySorted_inv in Hs as [_ Hall].
    rewrite Forall_forall in Hall.
    assert (Hlt : StdMap.less k' k).
    { apply Hall. unfold StdMap.keys. rewrite map_app. apply in_or_app.
      right. now left. }
    unfold StdMap.less in Hlt.
    rewrite String.compare_antisym, Hlt. cbn [CompOpp].
    apply IH. now apply ok_cons in Hok as [_ Hok].
Qed.

(** C2.  The match scan is first-match: when the matcher rejects every
    entry before [user_id] in the order of the map and accepts the
    entry of [user_id], the matcher is called on the entries up to and
    including that one, in the order of the map, and on none of the
    entries after it, whatever it would say of them; [user_id] is the
    one match reported, and the entries around it are left as they
    were. *)
Theorem C2_scan_first_match :
  forall (last : AuthenticateStatus) (fp : Faceprints)
         (before after : Db) (user_id : string) (second : Faceprints),
    (forall iter, In iter before ->
                  success (verdict_of fp (snd iter)) = false) ->
    success (verdict_of fp second) = true ->
    exists r,
      auth_OnResult last AuthenticateStatus_Success (Some fp)
                    (before ++ (user_id, second) :: after) = Some r
      /\ matched r
         = List.map (call_for fp) (before ++ [(user_id, second)])
      /\ List.map call_existing (matched r)
         = firstn (S (List.length before))
                  (List.map snd (before ++ (user_id, second) :: after))
      /\ List.length (matched r) = S (List.length before)
      /\ match_successes (printed r) = [user_id]
      /\ exists second',
           db_after r = before ++ (user_id, second') :: after.
Proof.
  intros last fp before after user_id second Hrej Hhit.
  unfold FaceprintsAuthClbk_OnResult. rewrite Faceprints_copy.
  rewrite scan_first_hit; [| exact Hrej | exact Hhit].
  destruct (MatchFaceprints fp second second) as [m upd].
  eexists. split; [reflexivity |]. cbn [matched printed db_after].
  assert (Hnone : forall n,
             match_successes (repeat Out_Forbidden n ++
               Out_Match_success user_id ::
               (if should_update m then [Out_Updated_avg_faceprint] else []))
             = [user_id]).
  { induction n as [| n IHn]; cbn.
    - now destruct (should_update m).
    - exact IHn. }
  repeat split.
  - rewrite map_map. unfold call_for; cbn [call_existing].
    rewrite map_app. cbn [List.map].
    rewrite <- (firstn_app_2 1 (List.map snd before)
                  (snd (user_id, second) :: List.map snd after)) at 1.
    rewrite length_map. replace (List.length before + 1)%nat
      with (S (List.length before)) by lia.
    cbn [firstn]. rewrite map_app. reflexivity.
  - rewrite length_map, length_app. cbn [List.length]. lia.
  - apply (Hnone (List.length before)).
  - eexists. reflexivity.
Qed.

(** C5.  When the matcher accepts no stored entry, the authentication
    reports no match (one "Forbidden" line for each entry, no "Match
    success" line) after calling the matcher on every entry, and the
    database is the one it started from. *)
Theorem C5_no_match_store_unmodified :
  forall (last : AuthenticateStatus) (fp : Faceprints) (db : Db),
    (forall iter, In iter db -> success (verdict_of fp (snd iter)) = false) ->
    exists r,
      auth_OnResult last AuthenticateStatus_Success (Some fp) db = Some r
      /\ auth_outcome (printed r) = NoMatchFound
      /\ db_after r = db
      /\ printed r
         = Out_auth_on_result AuthenticateStatus_Success
           :: Out_Searching (StdMap.size db)
           :: repeat Out_Forbidden (StdMap.size db)
      /\ matched r = List.map (call_for fp) db.
Proof.
  intros last fp db Hrej.
  unfold FaceprintsAuthClbk_OnResult. rewrite Faceprints_copy.
  rewrite scan_rejected; [| exact Hrej].
  eexists. split; [reflexivity |]. cbn [matched printed db_after].
  repeat split.
  unfold auth_outcome. cbn [match_successes flat_map app].
  replace (flat_map _ (repeat Out_Forbidden (List.length db)))
    with (@nil string); [reflexivity |].
  induction (List.length db) as [| n IHn]; cbn; [reflexivity | exact IHn].
Qed.

Local Abbreviation loop := (sample_loop MatchFaceprints value_initialized).
Local Abbreviation loop_case :=
  (sample_loop_case MatchFaceprints value_initialized).

(** What a successful enrollment result leaves under the user id: the
    version, the count and the extracted vector, twice, of the payload,
    and the [featuresType] the entry had before (that of a
    value-initialised entry when the user id is new). *)
Lemma enroll_stored (user_id : string) (fp : Faceprints) (db : Db) :
  exists r,
    enroll_OnResult user_id EnrollStatus_Success (Some fp) db = Some r
    /\ StdMap.find user_id (db_after r)
       = Some (mkFaceprints
                 (version fp) (numberOfDescriptors fp)
                 (featuresType match StdMap.find user_id db with
                               | Some previous => previous
                               | None => value_initialized
                               end)
                 (avgDescriptor fp) (avgDescriptor fp))
    /\ printed r = [Out_enroll_on_result EnrollStatus_Success]
    /\ matched r = [].
Proof.
  unfold MyEnrollServerClbk_OnResult.
  eexists. split; [reflexivity |]. cbn [db_after printed matched].
  repeat split. rewrite !find_update_same. reflexivity.
Qed.

Lemma enroll_keys_present (user_id : string) (fp : Faceprints) (db : Db) :
  StdMap.find user_id db <> None ->
  exists r,
    enroll_OnResult user_id EnrollStatus_Success (Some fp) db = Some r
    /\ StdMap.keys (db_after r) = StdMap.keys db.
Proof.
  intro Hin. unfold MyEnrollServerClbk_OnResult.
  eexists. split; [reflexivity |]. cbn [db_after].
  rewrite !keys_update_present; try reflexivity;
    rewrite ?find_update_same; try assumption; discriminate.
Qed.

Lemma enroll_ok (user_id : string) (status : EnrollStatus)
    (ptr : option Faceprints) (db : Db) (r : Run) :
  enroll_OnResult user_id status ptr db = Some r ->
  StdMap.ok db = true -> StdMap.ok (db_after r) = true.
Proof.
  unfold MyEnrollServerClbk_OnResult. intros H Hok.
  destruct status; [destruct ptr as [fp |]; [| discriminate] | |];
    injection H as <-; cbn [db_after]; try exact Hok.
  now repeat apply ok_update.
Qed.

Lemma auth_keys (last status : AuthenticateStatus)
    (ptr : option Faceprints) (db : Db) (r : Run) :
  auth_OnResult last status ptr db = Some r ->
  StdMap.keys (db_after r) = StdMap.keys db.
Proof.
  unfold FaceprintsAuthClbk_OnResult. intro H.
  destruct status; [destruct ptr as [fp |]; [| discriminate] | | | |];
    injection H as <-; cbn [db_after]; try reflexivity.
  apply scan_keys.
Qed.

Lemma auth_find_origDescriptor (last status : AuthenticateStatus)
    (ptr : option Faceprints) (db : Db) (r : Run) :
  keeps_origDescriptor MatchFaceprints ->
  auth_OnResult last status ptr db = Some r ->
  forall user_id,
    option_map origDescriptor (StdMap.find user_id (db_after r))
    = option_map origDescriptor (StdMap.find user_id db).
Proof.
  unfold FaceprintsAuthClbk_OnResult. intros Hkeep H user_id.
  destruct status; [destruct ptr as [fp |]; [| discriminate] | | | |];
    injection H as <-; cbn [db_after]; try reflexivity.
  now apply scan_find_origDescriptor.
Qed.

Lemma auth_OnResult_defined (last : AuthenticateStatus)
    (session : AuthSession) (db : Db) :
  auth_session_valid session ->
  exists r, auth_OnResult last (auth_status session)
                          (auth_faceprints_ptr session) db = Some r.
Proof.
  unfold auth_session_valid, FaceprintsAuthClbk_OnResult. intro Hvalid.
  destruct (auth_status session); try (eexists; reflexivity).
  destruct (auth_faceprints_ptr session); [eexists; reflexivity |].
  now exfalso; apply Hvalid.
Qed.

Lemma loop_case_ok (c : Command) (db : Db) (r : Run) :
  loop_case c db = Some r ->
  StdMap.ok db = true -> StdMap.ok (db_after r) = true.
Proof.
  destruct c as [user_id session | session | | | | key];
    cbn [sample_loop_case]; intros H Hok;
    try (injection H as <-; cbn [db_after]; first [exact Hok | reflexivity]).
  - unfold enroll_faceprints in H.
    destruct (MyEnrollServerClbk_OnResult _ _ _ _ _) as [r0 |] eqn:E;
      [| discriminate].
    injection H as <-. cbn [db_after]. eapply enroll_ok; eassumption.
  - unfold authenticate_faceprints in H.
    destruct (FaceprintsAuthClbk_OnResult _ _ _ _ _) as [r0 |] eqn:E;
      [| discriminate].
    injection H as <-. cbn [db_after].
    rewrite (ok_keys _ _ (auth_keys _ _ _ _ E)). exact Hok.
Qed.

Lemma loop_ok (input : list Command) :
  forall (db : Db) (r : Run),
    loop input db = Some r ->
    StdMap.ok db = true -> StdMap.ok (db_after r) = true.
Proof.
  induction input as [| c input IH]; intros db r H Hok.
  - injection H as <-. exact Hok.
  - assert (Hstep :
      match loop_case c db with
      | None => None
      | Some r0 => Run_seq r0 (loop input)
      end = Some r -> StdMap.ok (db_after r) = true).
    { destruct (loop_case c db) as [r0 |] eqn:E; [| discriminate].
      unfold Run_seq.
      destruct (loop input (db_after r0)) as [r1 |] eqn:E1;
        [| discriminate].
      intro H1. injection H1 as <-. cbn [db_after].
      eapply IH; [exact E1 |]. eapply loop_case_ok; eassumption. }
    destruct c; cbn [sample_loop] in H; try (now apply Hstep).
    injection H as <-. exact Hok.
Qed.

Lemma listed_users (n : nat) (db : Db) :
  listed (Out_users n :: List.map (fun iter => Out_user (fst iter)) db)
  = StdMap.keys db.
Proof.
  unfold listed, StdMap.keys. cbn [flat_map app].
  induction db as [| iter db IH]; cbn [List.map flat_map app];
    [reflexivity | now rewrite IH].
Qed.

Lemma listed_app (out out' : list Out) :
  listed (out ++ out') = listed out ++ listed out'.
Proof. apply flat_map_app. Qed.

Lemma outcome_of_hit (status : AuthenticateStatus) (size n : nat)
    (user_id : string) :
  auth_outcome
    (Out_auth_on_result status :: Out_Searching size
     :: repeat Out_Forbidden n
        ++ [Out_Match_success user_id; Out_Updated_avg_faceprint])
  = Matched user_id true.
Proof.
  unfold auth_outcome, match_successes. cbn [flat_map app].
  assert (Hs : flat_map (fun o => match o with
                                  | Out_Match_success u => [u]
                                  | _ => []
                                  end)
                 (repeat Out_Forbidden n
                  ++ [Out_Match_success user_id; Out_Updated_avg_faceprint])
               = [user_id]).
  { induction n as [| n IHn]; cbn; [reflexivity | exact IHn]. }
  rewrite Hs. f_equal. cbn [existsb orb].
  rewrite existsb_app. cbn. apply orb_true_r.
Qed.

(** C3.  With a matcher whose updated template keeps the original
    descriptor of the stored one: an authentication whose first
    accepted entry is flagged for update stores the matcher's updated
    template under the matched user id, so the entry has the updated
    average descriptor and the original descriptor it had; and after
    any number of authentications in a row every user id of the
    database still has the original descriptor it started with. *)
Theorem C3_update_keeps_origDescriptor :
  keeps_origDescriptor MatchFaceprints ->
  (forall (last : AuthenticateStatus) (fp : Faceprints)
          (before after : Db) (user_id : string)
          (second updated : Faceprints),
      (forall iter, In iter before ->
                    success (verdict_of fp (snd iter)) = false) ->
      MatchFaceprints fp second second
      = (mkMatchResult true true, updated) ->
      exists r,
        auth_OnResult last AuthenticateStatus_Success (Some fp)
                      (before ++ (user_id, second) :: after) = Some r
        /\ db_after r = before ++ (user_id, updated) :: after
        /\ (StdMap.ok (before ++ (user_id, second) :: after) = true ->
            StdMap.find user_id (db_after r) = Some updated)
        /\ origDescriptor updated = origDescriptor second
        /\ auth_outcome (printed r) = Matched user_id true)
  /\ (forall (sessions : list AuthSession) (db : Db),
        Forall auth_session_valid sessions ->
        exists r,
          loop (List.map Key_A sessions) db = Some r
          /\ StdMap.keys (db_after r) = StdMap.keys db
          /\ forall user_id,
               option_map origDescriptor
                          (StdMap.find user_id (db_after r))
               = option_map origDescriptor (StdMap.find user_id db)).
Proof.
  intro Hkeep. split.
  - intros last fp before after user_id second updated Hrej Hupd.
    assert (Hhit : success (verdict_of fp second) = true).
    { unfold verdict. now rewrite Hupd. }
    unfold FaceprintsAuthClbk_OnResult. rewrite Faceprints_copy.
    rewrite scan_first_hit; [| exact Hrej | exact Hhit].
    rewrite Hupd. cbn [should_update].
    eexists. split; [reflexivity |]. cbn [db_after printed].
    split; [reflexivity |]. split; [| split].
    + intro Hok. apply find_middle.
      rewrite <- Hok. apply ok_keys. unfold StdMap.keys.
      rewrite !map_app. reflexivity.
    + pose proof (Hkeep fp second) as Hk. now rewrite Hupd in Hk.
    + apply outcome_of_hit.
  - intros sessions. induction sessions as [| session sessions IH];
      intros db Hvalid.
    + eexists. split; [reflexivity |]. now split.
    + inversion Hvalid as [| ? ? Hs Hrest]; subst.
      cbn [List.map sample_loop sample_loop_case].
      unfold authenticate_faceprints.
      destruct (auth_OnResult_defined AuthenticateStatus_CameraStarted db Hs)
        as [r0 E].
      rewrite E. unfold Run_seq. cbn [db_after].
      destruct (IH (db_after r0) Hrest) as [r1 [E1 [Hkeys Horig]]].
      rewrite E1. eexists. split; [reflexivity |]. cbn [db_after].
      split.
      * rewrite Hkeys. eapply auth_keys; exact E.
      * intro user_id. rewrite Horig.
        eapply auth_find_origDescriptor; eassumption.
Qed.

(** C4.  A successful enrollment result leaves, under its user id, a
    template whose average descriptor and original descriptor are both
    the extracted vector. *)
Theorem C4_enrolled_avg_is_orig :
  forall (user_id : string) (fp : Faceprints) (db : Db),
  exists r created,
    enroll_OnResult user_id EnrollStatus_Success (Some fp) db = Some r
    /\ StdMap.find user_id (db_after r) = Some created
    /\ avgDescriptor created = origDescriptor created
    /\ avgDescriptor created = avgDescriptor fp.
Proof.
  intros user_id fp db.
  destruct (enroll_stored user_id fp db) as [r [E [Hfind _]]].
  exists r. eexists. split; [exact E |]. split; [exact Hfind |].
  split; reflexivity.
Qed.

(** C7.  A result that is not [Success], of an enrollment or of an
    authentication extraction, is only printed: the callback does not
    read the faceprints it is given, calls the matcher not once and
    leaves the database as it was; so does the whole session around
    it. *)
Theorem C7_failure_leaves_store :
  (forall (user_id : string) (session : EnrollSession) (db : Db),
      enroll_status session <> EnrollStatus_Success ->
      enroll_OnResult user_id (enroll_status session)
                      (enroll_faceprints_ptr session) db
      = Some (mkRun db [Out_enroll_on_result (enroll_status session)] [])
      /\ exists r,
           enroll_faceprints value_initialized user_id session db = Some r
           /\ db_after r = db /\ matched r = [])
  /\ (forall (last : AuthenticateStatus) (session : AuthSession) (db : Db),
        auth_status session <> AuthenticateStatus_Success ->
        auth_OnResult last (auth_status session)
                      (auth_faceprints_ptr session) db
        = Some (mkRun db [Out_auth_on_result (auth_status session);
                          Out_ExtractFaceprints_failed last] [])
        /\ exists r,
             authenticate_faceprints MatchFaceprints session db = Some r
             /\ db_after r = db /\ matched r = []).
Proof.
  split.
  - intros user_id session db Hfail.
    unfold enroll_faceprints, MyEnrollServerClbk_OnResult.
    destruct (enroll_status session); [contradiction | |];
      (split; [reflexivity | eexists; repeat split]).
  - intros last session db Hfail.
    unfold authenticate_faceprints, FaceprintsAuthClbk_OnResult.
    destruct (auth_status session); [contradiction | | | |];
      (split; [reflexivity | eexists; repeat split]).
Qed.

(** C9.  Whatever was typed since the start of the program, the keys of
    the database are strictly ascending in the lexicographic order of
    the user ids, hence without duplicates; the listing prints them in
    that order and leaves the database as it is, so that listing again
    prints the same; the match scan calls the matcher on the entries in
    that order, on all of them when the matcher rejects them all and
    otherwise on those up to and including the first it accepts; and
    enrolling a user id the database already holds changes neither its
    size nor its keys. *)
Theorem C9_enumeration_order :
  forall (input : list Command) (r : Run),
    loop input [] = Some r ->
    StronglySorted StdMap.less (StdMap.keys (db_after r))
    /\ NoDup (StdMap.keys (db_after r))
    /\ (exists r',
          loop [Key_U; Key_U] (db_after r) = Some r'
          /\ listed (printed r')
             = StdMap.keys (db_after r) ++ StdMap.keys (db_after r)
          /\ db_after r' = db_after r)
    /\ (forall (last : AuthenticateStatus) (fp : Faceprints),
          exists r' n,
            auth_OnResult last AuthenticateStatus_Success (Some fp)
                          (db_after r) = Some r'
            /\ matched r' = List.map (call_for fp) (firstn n (db_after r))
            /\ StdMap.keys (db_after r') = StdMap.keys (db_after r)
            /\ ((forall iter, In iter (db_after r) ->
                              success (verdict_of fp (snd iter)) = false)
                /\ n = StdMap.size (db_after r)
                \/ exists before user_id second after,
                     db_after r = before ++ (user_id, second) :: after
                     /\ (forall iter, In iter before ->
                            success (verdict_of fp (snd iter)) = false)
                     /\ success (verdict_of fp second) = true
                     /\ n = S (List.length before)))
    /\ (forall (user_id : string) (fp : Faceprints),
          StdMap.find user_id (db_after r) <> None ->
          exists r',
            enroll_OnResult user_id EnrollStatus_Success (Some fp)
                            (db_after r) = Some r'
            /\ StdMap.size (db_after r') = StdMap.size (db_after r)
            /\ StdMap.keys (db_after r') = StdMap.keys (db_after r)).
Proof.
  intros input r Hrun.
  assert (Hok : StdMap.ok (db_after r) = true)
    by (eapply loop_ok; [exact Hrun | reflexivity]).
  pose proof (ok_sorted _ Hok) as Hsorted.
  split; [exact Hsorted |]. split; [now apply sorted_NoDup |].
  split; [| split].
  - eexists. split; [reflexivity |]. cbn [printed db_after app].
    split; [| reflexivity].
    rewrite app_nil_r, app_comm_cons, listed_app.
    now rewrite !listed_users.
  - intros last fp. unfold FaceprintsAuthClbk_OnResult.
    rewrite Faceprints_copy.
    destruct (scan_visits fp (db_after r)) as [n [Hn [_ [_ Hpin]]]].
    eexists. exists n. split; [reflexivity |]. cbn [matched db_after].
    split; [exact Hn |]. split; [apply scan_keys | exact Hpin].
  - intros user_id fp Hin.
    destruct (@enroll_keys_present user_id fp (db_after r) Hin)
      as [r' [E Hkeys]].
    exists r'. split; [exact E |]. split; [| exact Hkeys].
    unfold StdMap.size. unfold StdMap.keys in Hkeys.
    rewrite <- (length_map fst (db_after r')), Hkeys. apply length_map.
Qed.

(** C10.  Deleting all users and then listing them prints no user id:
    ['D'] clears the database whatever it holds, and the listing that
    follows reports zero users. *)
Theorem C10_clear_then_list :
  forall db : Db,
  exists r,
    loop [Key_D; Key_U] db = Some r
    /\ db_after r = []
    /\ listed (printed r) = []
    /\ printed r = [Out_Faceprints_deleted; Out_users 0].
Proof.
  intro db. eexists. split; [reflexivity |]. repeat split.
Qed.

End ServerFacts.


(* ================================================================== *)
(** * The enrollment result and [featuresType] *)

(** C1.  A successful enrollment result stores, under its user id, the
    version, the descriptor count and (as both descriptors) the extracted
    vector of the payload, but not the payload's [featuresType]: the
    entry keeps the [featuresType] it had, that of a value-initialised
    entry when the user id is new.  Enrolling "alice" into the empty
    database with a payload of [featuresType] 1 stores [featuresType] 0. *)
Theorem C1_enroll_leaves_featuresType :
  (forall (value_initialized : Faceprints) (user_id : string)
          (fp : Faceprints) (db : Db),
      exists r,
        MyEnrollServerClbk_OnResult value_initialized user_id
          EnrollStatus_Success (Some fp) db = Some r
        /\ StdMap.find user_id (db_after r)
           = Some (mkFaceprints
                     (version fp) (numberOfDescriptors fp)
                     (featuresType match StdMap.find user_id db with
                                   | Some previous => previous
                                   | None => value_initialized
                                   end)
                     (avgDescriptor fp) (avgDescriptor fp)))
  /\ MyEnrollServerClbk_OnResult demo_value_initialized "alice"
       EnrollStatus_Success (Some (mkFaceprints 3 1 1 [7; 8] [0; 0])) []
     = Some (mkRun [("alice", mkFaceprints 3 1 0 [7; 8] [7; 8])]
                   [Out_enroll_on_result EnrollStatus_Success] []).
Proof.
  split; [| reflexivity].
  intros value_initialized user_id fp db.
  destruct (enroll_stored value_initialized user_id fp db)
    as [r [E [Hfind _]]].
  exists r. now split.
Qed.

(* ================================================================== *)
(** * Removing one user *)

(** C8.  [Remove(user_id)] on a database without [user_id] fails with
    [KeyNotFound] and returns the database as it was; on a database with
    [user_id] it succeeds, and the database it returns has no entry for
    [user_id], the entries it had for every other user id, and one entry
    less. *)
Theorem C8_Remove :
  forall (db : Db) (user_id : string),
    StdMap.ok db = true ->
    (StdMap.find user_id db = None ->
     Remove user_id db = (Some KeyNotFound, db))
    /\ (StdMap.find user_id db <> None ->
        exists db',
          Remove user_id db = (None, db')
          /\ StdMap.find user_id db' = None
          /\ (forall other, other <> user_id ->
                StdMap.find other db' = StdMap.find other db)
          /\ S (StdMap.size db') = StdMap.size db
          /\ StdMap.ok db' = true).
Proof.
  intros db user_id Hok. unfold Remove. split.
  - now intros ->.
  - intro Hin. destruct (StdMap.find user_id db) as [v |] eqn:E;
      [| contradiction].
    eexists. split; [reflexivity |]. split; [| split; [| split]].
    + now apply find_erase_same.
    + intros other Hne. now apply find_erase_other.
    + apply size_erase. congruence.
    + now apply ok_erase.
Qed.

(* ================================================================== *)
(** * The theorems at work *)

(** The demo matcher keeps the original descriptor. *)
Lemma demo_keeps_origDescriptor : keeps_origDescriptor demo_MatchFaceprints.
Proof. intros new existing. reflexivity. Qed.

(** Users A, B, C with a scan the matcher accepts for both B and C: the
    matcher is called on A and B only, and B is the match. *)
Lemma C2_scan_first_match_witness :
  (forall iter,
      In iter [("alice", mkFaceprints 3 1 0 [5; 1] [5; 1])] ->
      success (verdict demo_MatchFaceprints (demo_extracted 7 9) (snd iter))
      = false)
  /\ success (verdict demo_MatchFaceprints (demo_extracted 7 9)
                      (mkFaceprints 3 1 0 [7; 2] [7; 2])) = true
  /\ success (verdict demo_MatchFaceprints (demo_extracted 7 9)
                      (mkFaceprints 3 1 0 [7; 3] [7; 3])) = true
  /\ exists r,
       FaceprintsAuthClbk_OnResult demo_MatchFaceprints
         AuthenticateStatus_CameraStarted AuthenticateStatus_Success
         (Some (demo_extracted 7 9)) demo_db = Some r
       /\ List.map call_existing (matched r)
          = [mkFaceprints 3 1 0 [5; 1] [5; 1];
             mkFaceprints 3 1 0 [7; 2] [7; 2]]
       /\ match_successes (printed r) = ["bob"].
Proof.
  assert (H1 : forall iter,
             In iter [("alice", mkFaceprints 3 1 0 [5; 1] [5; 1])] ->
             success (verdict demo_MatchFaceprints (demo_extracted 7 9)
                              (snd iter)) = false).
  { intros iter [<- | []]. reflexivity. }
  split; [exact H1 |]. split; [reflexivity |]. split; [reflexivity |].
  destruct (C2_scan_first_match demo_MatchFaceprints
              AuthenticateStatus_CameraStarted (demo_extracted 7 9)
              [("alice", mkFaceprints 3 1 0 [5; 1] [5; 1])]
              [("carol", mkFaceprints 3 1 0 [7; 3] [7; 3])]
              "bob" (mkFaceprints 3 1 0 [7; 2] [7; 2]) H1 eq_refl)
    as [r [E [_ [Hcalls [_ [Hhits _]]]]]].
  exists r. split; [exact E |]. split; [exact Hcalls | exact Hhits].
Defined.

(** Scenario 2 of the spec: "alice" enrolled with vector [7; 2],
    authenticated with a scan [7; 9] flagged for update; then two more
    authentications. *)
Lemma C3_update_keeps_origDescriptor_witness :
  keeps_origDescriptor demo_MatchFaceprints
  /\ (exists r,
        FaceprintsAuthClbk_OnResult demo_MatchFaceprints
          AuthenticateStatus_CameraStarted AuthenticateStatus_Success
          (Some (demo_extracted 7 9))
          [("alice", mkFaceprints 3 1 0 [7; 2] [7; 2])] = Some r
        /\ StdMap.find "alice" (db_after r)
           = Some (mkFaceprints 3 1 0 [7; 9] [7; 2]))
  /\ (exists r,
        sample_loop demo_MatchFaceprints demo_value_initialized
          [Key_A (demo_auth 7 9); Key_A (demo_auth 5 4)] demo_db = Some r
        /\ forall user_id,
             option_map origDescriptor (StdMap.find user_id (db_after r))
             = option_map origDescriptor (StdMap.find user_id demo_db)).
Proof.
  split; [exact demo_keeps_origDescriptor |].
  destruct (C3_update_keeps_origDescriptor demo_value_initialized
              demo_keeps_origDescriptor) as [Hone Hmany].
  split.
  - destruct (Hone AuthenticateStatus_CameraStarted (demo_extracted 7 9)
                [] [] "alice" (mkFaceprints 3 1 0 [7; 2] [7; 2])
                (mkFaceprints 3 1 0 [7; 9] [7; 2])
                (fun iter (Hin : In iter []) => match Hin with end)
                eq_refl)
      as [r [E [_ [Hfind _]]]].
    exists r. split; [exact E | exact (Hfind eq_refl)].
  - destruct (Hmany [demo_auth 7 9; demo_auth 5 4] demo_db)
      as [r [E [_ Horig]]].
    + repeat constructor; intros _; discriminate.
    + exists r. split; [exact E | exact Horig].
Defined.

(** Scenario 3 of the spec: a scan the matcher rejects for every user. *)
Lemma C5_no_match_store_unmodified_witness :
  (forall iter, In iter demo_db ->
     success (verdict demo_MatchFaceprints (demo_extracted 9 9) (snd iter))
     = false)
  /\ exists r,
       FaceprintsAuthClbk_OnResult demo_MatchFaceprints
         AuthenticateStatus_CameraStarted AuthenticateStatus_Success
         (Some (demo_extracted 9 9)) demo_db = Some r
       /\ auth_outcome (printed r) = NoMatchFound
       /\ db_after r = demo_db.
Proof.
  assert (H : forall iter, In iter demo_db ->
            success (verdict demo_MatchFaceprints (demo_extracted 9 9)
                             (snd iter)) = false).
  { intros iter [<- | [<- | [<- | []]]]; reflexivity. }
  split; [exact H |].
  destruct (C5_no_match_store_unmodified demo_MatchFaceprints
              AuthenticateStatus_CameraStarted (demo_extracted 9 9)
              demo_db H) as [r [E [Hout [Hdb _]]]].
  exists r. split; [exact E |]. split; [exact Hout | exact Hdb].
Defined.

(** A failed enrollment and a forbidden authentication. *)
Lemma C7_failure_leaves_store_witness :
  EnrollStatus_Failure 4 <> EnrollStatus_Success
  /\ AuthenticateStatus_Forbidden <> AuthenticateStatus_Success
  /\ (exists r,
        enroll_faceprints demo_value_initialized "dave"
          (mkEnrollSession [Enroll_Progress Left] (EnrollStatus_Failure 4)
                           None (Status_Error 1)) demo_db = Some r
        /\ db_after r = demo_db /\ matched r = [])
  /\ (exists r,
        authenticate_faceprints demo_MatchFaceprints
          (mkAuthSession [] AuthenticateStatus_Forbidden None Status_Ok)
          demo_db = Some r
        /\ db_after r = demo_db /\ matched r = []).
Proof.
  split; [discriminate |]. split; [discriminate |].
  destruct (C7_failure_leaves_store demo_MatchFaceprints
              demo_value_initialized) as [Henroll Hauth].
  split.
  - refine (proj2 (Henroll "dave"
              (mkEnrollSession [Enroll_Progress Left] (EnrollStatus_Failure 4)
                               None (Status_Error 1)) demo_db _)).
    discriminate.
  - refine (proj2 (Hauth AuthenticateStatus_CameraStarted
              (mkAuthSession [] AuthenticateStatus_Forbidden None Status_Ok)
              demo_db _)).
    discriminate.
Defined.

(** Scenario 4 of the spec: removing a user id the database does not
    hold. *)
Lemma C8_Remove_witness :
  StdMap.ok demo_db = true
  /\ StdMap.find "dave" demo_db = None
  /\ Remove "dave" demo_db = (Some KeyNotFound, demo_db).
Proof.
  split; [reflexivity |]. split; [reflexivity |].
  exact (proj1 (C8_Remove demo_db "dave" eq_refl) eq_refl).
Defined.

(** "bob" enrolled before "alice", an authentication, "bob" enrolled
    again: the listing is alphabetical. *)
Lemma C9_enumeration_order_witness :
  exists r,
    sample_loop demo_MatchFaceprints demo_value_initialized demo_input []
    = Some r
    /\ StdMap.keys (db_after r) = ["alice"; "bob"]
    /\ listed (printed r) = ["alice"; "bob"]
    /\ StronglySorted StdMap.less (StdMap.keys (db_after r)).
Proof.
  eexists. split; [vm_compute; reflexivity |].
  split; [reflexivity |]. split; [reflexivity |].
  refine (proj1 (C9_enumeration_order demo_MatchFaceprints
                   demo_value_initialized demo_input _)).
  vm_compute; reflexivity.
Defined.

(** Scenario 1 of the spec: enrolling "alice" with vector [7; 8] into the
    empty database. *)
Example scenario_1_enroll_alice :
  exists r,
    sample_loop demo_MatchFaceprints demo_value_initialized
      [Key_E "alice" (demo_enroll 7 8)] [] = Some r
    /\ StdMap.size (db_after r) = 1%nat
    /\ option_map avgDescriptor (StdMap.find "alice" (db_after r))
       = Some [7; 8]
    /\ option_map origDescriptor (StdMap.find "alice" (db_after r))
       = Some [7; 8].
Proof. eexists. split; [vm_compute; reflexivity |]. repeat split. Qed.

(** The pose guidance on a run: Left, then Left again, Center, Right. *)
Example pose_guidance_run :
  List.map (fun history =>
              MyEnrollClbk.guidance
                (snd (MyEnrollClbk.OnProgress
                        (last history Center)
                        (MyEnrollClbk.after (removelast history)))))
           [[Left]; [Left; Left]; [Left; Left; Center];
            [Left; Left; Center; Right]]
  = [[Center]; [Center]; [Right]; []].
Proof. reflexivity. Qed.

(* ================================================================== *)
(** * More facts about [std::map] *)

Section MoreMapFacts.
Variable V : Type.
Implicit Types (m : StdMap.t V) (k : string) (v : V).

Lemma find_update_other k k2 (f : V -> V) (fresh : V) m :
  k2 <> k ->
  StdMap.find k2 (StdMap.update k f fresh m) = StdMap.find k2 m.
Proof.
  intro Hne.
  induction m as [| [k' v'] m' IH]; cbn [StdMap.update StdMap.find].
  - destruct (String.compare k2 k) eqn:E2; try reflexivity.
    apply String.compare_eq_iff in E2. contradiction.
  - destruct (String.compare k k') eqn:E; cbn [StdMap.find].
    + apply String.compare_eq_iff in E. subst k'.
      destruct (String.compare k2 k) eqn:E2; try reflexivity.
      apply String.compare_eq_iff in E2. contradiction.
    + destruct (String.compare k2 k) eqn:E2.
      * apply String.compare_eq_iff in E2. contradiction.
      * assert (Hlt : String.compare k2 k' = Lt)
          by (eapply less_trans; eassumption).
        now rewrite Hlt.
      * reflexivity.
    + destruct (String.compare k2 k'); auto.
Qed.

Lemma size_update k (f : V -> V) (fresh : V) m :
  StdMap.size (StdMap.update k f fresh m)
  = match StdMap.find k m with
    | Some _ => StdMap.size m
    | None => S (StdMap.size m)
    end.
Proof.
  unfold StdMap.size.
  induction m as [| [k' v'] m' IH]; cbn [StdMap.update StdMap.find].
  - reflexivity.
  - destruct (String.compare k k') eqn:E; cbn [List.length];
      try reflexivity.
    rewrite IH. now destruct (StdMap.find k m').
Qed.

Lemma update_update k (f g : V -> V) (fresh : V) m :
  StdMap.update k f fresh (StdMap.update k g fresh m)
  = StdMap.update k (fun v => f (g v)) fresh m.
Proof.
  induction m as [| [k' v'] m' IH]; cbn [StdMap.update].
  - now rewrite compare_refl.
  - destruct (String.compare k k') eqn:E; cbn [StdMap.update].
    + now rewrite E.
    + now rewrite compare_refl.
    + now rewrite E, IH.
Qed.

Lemma update_ext k (f g : V -> V) (fresh : V) m :
  (forall v, f v = g v) ->
  StdMap.update k f fresh m = StdMap.update k g fresh m.
Proof.
  intro Hfg.
  induction m as [| [k' v'] m' IH]; cbn [StdMap.update].
  - now rewrite Hfg.
  - destruct (String.compare k k'); now rewrite ?Hfg, ?IH.
Qed.

(** Two well-formed maps with the same lookups are the same map. *)
Lemma ok_find_ext m :
  forall m2 : StdMap.t V,
    StdMap.ok m = true -> StdMap.ok m2 = true ->
    (forall k, StdMap.find k m = StdMap.find k m2) -> m = m2.
Proof.
  induction m as [| [k1 v1] t1 IH]; intros [| [k2 v2] t2] Hok1 Hok2 H.
  - reflexivity.
  - specialize (H k2). cbn [StdMap.find] in H.
    rewrite compare_refl in H. discriminate.
  - specialize (H k1). cbn [StdMap.find] in H.
    rewrite compare_refl in H. discriminate.
  - apply ok_cons in Hok1 as [Hb1 Hok1]. apply ok_cons in Hok2 as [Hb2 Hok2].
    pose proof (H k1) as H1. pose proof (H k2) as H2.
    cbn [StdMap.find] in H1, H2. rewrite compare_refl in H1, H2.
    destruct (String.compare k1 k2) eqn:E.
    + apply String.compare_eq_iff in E. subst k2.
      injection H1 as <-. f_equal. apply IH; try assumption.
      intro k. specialize (H k). cbn [StdMap.find] in H.
      destruct (String.compare k k1) eqn:Ek.
      * apply String.compare_eq_iff in Ek. subst k.
        now rewrite !find_below.
      * rewrite !find_below; try reflexivity;
          eapply below_trans; eassumption.
      * exact H.
    + discriminate.
    + apply compare_Gt_Lt in E. rewrite E in H2. discriminate.
Qed.

Lemma update_commute k1 k2 (f g : V -> V) (fresh : V) m :
  StdMap.ok m = true -> k1 <> k2 ->
  StdMap.update k1 f fresh (StdMap.update k2 g fresh m)
  = StdMap.update k2 g fresh (StdMap.update k1 f fresh m).
Proof.
  intros Hok Hne.
  apply ok_find_ext; try (now repeat apply ok_update).
  intro k.
  destruct (String.eqb_spec k k1) as [-> | Hk1];
    [| destruct (String.eqb_spec k k2) as [-> | Hk2]];
    repeat (rewrite find_update_same
            || rewrite find_update_other by congruence);
    reflexivity.
Qed.

Lemma update_Forall (P : V -> Prop) k (f : V -> V) (fresh : V) m :
  (forall v, P v -> P (f v)) -> P fresh ->
  Forall (fun iter => P (snd iter)) m ->
  Forall (fun iter => P (snd iter)) (StdMap.update k f fresh m).
Proof.
  intros Hf Hfresh.
  induction m as [| [k' v'] m' IH]; cbn [StdMap.update]; intro Hall.
  - constructor; [now apply Hf | constructor].
  - inversion Hall as [| ? ? Hhd Htl]; subst. cbn [snd] in Hhd.
    destruct (String.compare k k').
    + constructor; [now apply Hf | exact Htl].
    + constructor; [now apply Hf | exact Hall].
    + constructor; [exact Hhd | now apply IH].
Qed.

End MoreMapFacts.

(* ================================================================== *)
(** * More facts about the server-mode callbacks *)

Lemma Run_eta (r : Run) : mkRun (db_after r) (printed r) (matched r) = r.
Proof. now destruct r. Qed.

Lemma first_success_append (n : nat) (user_id : string) (rest : list Out) :
  match_successes (repeat Out_Forbidden n ++ Out_Match_success user_id :: rest)
  = user_id :: match_successes rest.
Proof. induction n as [| n IHn]; cbn; [reflexivity | exact IHn]. Qed.

Section MoreServerFacts.

Variable MatchFaceprints :
  Faceprints -> Faceprints -> Faceprints -> MatchResult * Faceprints.
Variable value_initialized : Faceprints.

Local Abbreviation scan := (FaceprintsAuthClbk_scan MatchFaceprints).
Local Abbreviation auth_OnResult :=
  (FaceprintsAuthClbk_OnResult MatchFaceprints).
Local Abbreviation enroll_OnResult :=
  (MyEnrollServerClbk_OnResult value_initialized).
Local Abbreviation verdict_of := (verdict MatchFaceprints).
Local Abbreviation loop := (sample_loop MatchFaceprints value_initialized).
Local Abbreviation loop_case :=
  (sample_loop_case MatchFaceprints value_initialized).

(** The four assignments of a successful enrollment result amount to
    one rewrite of the entry. *)
Lemma enroll_as_update (user_id : string) (fp : Faceprints) (db : Db) :
  enroll_OnResult user_id EnrollStatus_Success (Some fp) db
  = Some (mkRun (StdMap.update user_id (enrolled fp) value_initialized db)
                [Out_enroll_on_result EnrollStatus_Success] []).
Proof.
  unfold MyEnrollServerClbk_OnResult. do 2 f_equal.
  rewrite !update_update. apply update_ext. intro v. reflexivity.
Qed.

(** X1.  A successful enrollment result leaves the entries of all other user
    ids as they were, adds one entry when its user id is new and none
    when it is not, and keeps the keys strictly ascending. *)
Theorem enroll_touches_one_entry :
  forall (user_id : string) (fp : Faceprints) (db : Db),
  exists r,
    enroll_OnResult user_id EnrollStatus_Success (Some fp) db = Some r
    /\ (forall other, other <> user_id ->
          StdMap.find other (db_after r) = StdMap.find other db)
    /\ StdMap.size (db_after r)
       = match StdMap.find user_id db with
         | Some _ => StdMap.size db
         | None => S (StdMap.size db)
         end
    /\ (StdMap.ok db = true -> StdMap.ok (db_after r) = true).
Proof.
  intros user_id fp db. rewrite enroll_as_update.
  eexists. split; [reflexivity |]. cbn [db_after].
  split; [| split].
  - intros other Hne. now apply find_update_other.
  - apply size_update.
  - apply ok_update.
Qed.

(** X2.  Enrolling a user id twice leaves the database that the second
    enrollment alone leaves: the second extracted vector replaces both
    descriptors, the original one included. *)
Theorem enroll_twice_last_wins :
  forall (user_id : string) (fp1 fp2 : Faceprints) (db : Db),
  exists r1 r2 r,
    enroll_OnResult user_id EnrollStatus_Success (Some fp1) db = Some r1
    /\ enroll_OnResult user_id EnrollStatus_Success (Some fp2) (db_after r1)
       = Some r2
    /\ enroll_OnResult user_id EnrollStatus_Success (Some fp2) db = Some r
    /\ db_after r2 = db_after r
    /\ option_map origDescriptor (StdMap.find user_id (db_after r2))
       = Some (avgDescriptor fp2).
Proof.
  intros user_id fp1 fp2 db. rewrite !enroll_as_update.
  do 3 eexists. split; [reflexivity |]. cbn [db_after].
  rewrite enroll_as_update.
  split; [reflexivity |]. split; [reflexivity |]. cbn [db_after].
  split.
  - rewrite update_update. apply update_ext. intro v. reflexivity.
  - now rewrite find_update_same.
Qed.

(** X3.  Successful enrollments of two different user ids commute: either
    order leaves the same database. *)
Theorem enroll_commute :
  forall (user_id1 user_id2 : string) (fp1 fp2 : Faceprints) (db : Db),
    StdMap.ok db = true ->
    user_id1 <> user_id2 ->
    exists r1 r12 r2 r21,
      enroll_OnResult user_id1 EnrollStatus_Success (Some fp1) db = Some r1
      /\ enroll_OnResult user_id2 EnrollStatus_Success (Some fp2)
                         (db_after r1) = Some r12
      /\ enroll_OnResult user_id2 EnrollStatus_Success (Some fp2) db
         = Some r2
      /\ enroll_OnResult user_id1 EnrollStatus_Success (Some fp1)
                         (db_after r2) = Some r21
      /\ db_after r12 = db_after r21.
Proof.
  intros user_id1 user_id2 fp1 fp2 db Hok Hne. rewrite !enroll_as_update.
  do 4 eexists. split; [reflexivity |]. cbn [db_after].
  rewrite !enroll_as_update.
  split; [reflexivity |]. split; [reflexivity |].
  split; [reflexivity |]. cbn [db_after].
  apply update_commute; [exact Hok | congruence].
Qed.

(** X4.  When the first entry the matcher accepts is not flagged for update,
    the match is reported and the database is left as it was, whatever
    the matcher wrote into its updated template. *)
Theorem auth_hit_without_update :
  forall (last : AuthenticateStatus) (fp : Faceprints)
         (before after : Db) (user_id : string)
         (second updated : Faceprints),
    (forall iter, In iter before ->
                  success (verdict_of fp (snd iter)) = false) ->
    MatchFaceprints fp second second
    = (mkMatchResult true false, updated) ->
    exists r,
      auth_OnResult last AuthenticateStatus_Success (Some fp)
                    (before ++ (user_id, second) :: after) = Some r
      /\ db_after r = before ++ (user_id, second) :: after
      /\ auth_outcome (printed r) = Matched user_id false
      /\ ~ In Out_Updated_avg_faceprint (printed r).
Proof.
  intros last fp before after user_id second updated Hrej Hhit.
  assert (Hacc : success (verdict_of fp second) = true).
  { unfold verdict. now rewrite Hhit. }
  unfold FaceprintsAuthClbk_OnResult. rewrite Faceprints_copy.
  rewrite scan_first_hit; [| exact Hrej | exact Hacc].
  rewrite Hhit. cbn [should_update].
  eexists. split; [reflexivity |]. cbn [db_after printed].
  split; [reflexivity |].
  assert (Hnone : forall n,
             ~ In Out_Updated_avg_faceprint
                  (repeat Out_Forbidden n ++ [Out_Match_success user_id])).
  { induction n as [| n IHn]; cbn.
    - intros [H | []]; discriminate.
    - intros [H | H]; [discriminate | now apply IHn]. }
  split.
  - unfold auth_outcome. cbn [match_successes flat_map app].
    fold (match_successes
            (repeat Out_Forbidden (List.length before)
             ++ [Out_Match_success user_id])).
    rewrite first_success_append. f_equal. cbn [existsb orb].
    apply not_true_is_false. intro Hex.
    apply existsb_exists in Hex as [o [Hin Ho]].
    destruct o; try discriminate. exact (Hnone _ Hin).
  - intros [H | [H | H]]; try discriminate. exact (Hnone _ H).
Qed.

Lemma scan_successes (fp : Faceprints) (db : Db) :
  (match_successes (printed (scan fp db)) = []
   <-> forall iter, In iter db -> success (verdict_of fp (snd iter)) = false)
  /\ (forall user_id,
         In user_id (match_successes (printed (scan fp db))) ->
         exists second,
           In (user_id, second) db
           /\ success (verdict_of fp second) = true).
Proof.
  induction db as [| [u second] rest [IHnone IHsome]];
    cbn [FaceprintsAuthClbk_scan].
  - split; [split; [intros _ iter [] | reflexivity] | intros ? []].
  - unfold verdict in *.
    destruct (MatchFaceprints fp second second) as [m upd] eqn:E.
    destruct (success m) eqn:Hs.
    + assert (Hacc : success (fst (MatchFaceprints fp second second)) = true)
        by now rewrite E.
      split.
      * split.
        -- destruct (should_update m); discriminate.
        -- intro Hrej. specialize (Hrej (u, second) (or_introl eq_refl)).
           cbn [snd] in Hrej. rewrite Hacc in Hrej. discriminate.
      * intros user_id Hin. exists second.
        assert (user_id = u) as ->.
        { destruct (should_update m); cbn in Hin;
            destruct Hin as [H | []]; now subst. }
        split; [now left | exact Hacc].
    + cbn [printed]. change (match_successes (Out_Forbidden :: ?l))
        with (match_successes l).
      split.
      * rewrite IHnone. split.
        -- intros Hrest iter [<- | Hin]; [| now apply Hrest].
           cbn [snd]. now rewrite E.
        -- intros Hall iter Hin. apply Hall. now right.
      * intros user_id Hin. destruct (IHsome user_id Hin) as [t [Ht Hacc]].
        exists t. split; [now right | exact Hacc].
Qed.

(** X5.  An authentication reports no match exactly when the matcher rejects
    every stored entry; a user id it reports as matched is a stored one
    that the matcher accepts. *)
Theorem auth_outcome_iff :
  forall (last : AuthenticateStatus) (fp : Faceprints) (db : Db),
  exists r,
    auth_OnResult last AuthenticateStatus_Success (Some fp) db = Some r
    /\ (auth_outcome (printed r) = NoMatchFound
        <-> forall iter, In iter db ->
                         success (verdict_of fp (snd iter)) = false)
    /\ (forall user_id updated,
           auth_outcome (printed r) = Matched user_id updated ->
           exists second,
             In (user_id, second) db
             /\ success (verdict_of fp second) = true).
Proof.
  intros last fp db.
  unfold FaceprintsAuthClbk_OnResult. rewrite Faceprints_copy.
  eexists. split; [reflexivity |]. cbn [printed].
  destruct (scan_successes fp db) as [Hnone Hsome].
  unfold auth_outcome. cbn [match_successes flat_map app].
  fold (match_successes (printed (scan fp db))).
  destruct (match_successes (printed (scan fp db))) as [| u l] eqn:E.
  - split.
    + split; [intros _; now apply Hnone | reflexivity].
    + intros ? ? ?. discriminate.
  - split.
    + split; [discriminate |]. intro Hall. apply Hnone in Hall. discriminate.
    + intros user_id updated [= <- _]. apply Hsome. now left.
Qed.

(** X6.  The match scan asks the matcher about the stored entries one
    by one in the order of the map, each at most once: its calls are the
    calls for the first [n] entries, one verdict line is printed for each
    call, and at most one of the verdicts is a match. *)
Theorem auth_one_verdict_per_call :
  forall (last : AuthenticateStatus) (fp : Faceprints) (db : Db),
  exists r n,
    auth_OnResult last AuthenticateStatus_Success (Some fp) db = Some r
    /\ matched r = List.map (call_for fp) (firstn n db)
    /\ (n <= StdMap.size db)%nat
    /\ List.length (verdict_lines (printed r)) = n
    /\ List.length (matched r) = n
    /\ (List.length (match_successes (printed r)) <= 1)%nat.
Proof.
  intros last fp db.
  unfold FaceprintsAuthClbk_OnResult. rewrite Faceprints_copy.
  destruct (scan_visits MatchFaceprints fp db)
    as [n [Hcalls [Hlines [Hone Hpin]]]].
  assert (Hn : (n <= StdMap.size db)%nat).
  { unfold StdMap.size.
    destruct Hpin as [[_ ->] | [before [u [t [after [-> [_ [_ ->]]]]]]]].
    - lia.
    - rewrite length_app. cbn [List.length]. lia. }
  eexists. exists n. split; [reflexivity |]. cbn [printed matched].
  change (verdict_lines (_ :: _ :: ?l)) with (verdict_lines l).
  change (match_successes (_ :: _ :: ?l)) with (match_successes l).
  split; [exact Hcalls |]. split; [exact Hn |]. split; [exact Hlines |].
  split; [| exact Hone].
  rewrite Hcalls, length_map, firstn_length_le; [reflexivity | exact Hn].
Qed.

Lemma loop_cons (c : Command) (input : list Command) (db : Db) :
  is_Key_q c = false ->
  loop (c :: input) db
  = match loop_case c db with
    | None => None
    | Some r => Run_seq r (loop input)
    end.
Proof. destruct c; intro H; try discriminate; reflexivity. Qed.

Lemma loop_q (input : list Command) (db : Db) :
  loop (Key_q :: input) db = Some (mkRun db [] []).
Proof. reflexivity. Qed.

(** Running two batches of commands one after the other is running them
    as one, when the first batch does not quit. *)
Lemma loop_app (pre post : list Command) :
  existsb is_Key_q pre = false ->
  forall db,
    loop (pre ++ post) db
    = match loop pre db with
      | None => None
      | Some r => Run_seq r (loop post)
      end.
Proof.
  induction pre as [| c pre IH]; intros Hq db.
  - cbn [app sample_loop]. unfold Run_seq. cbn [db_after printed matched app].
    destruct (loop post db) as [r |]; [now rewrite Run_eta | reflexivity].
  - cbn [existsb] in Hq. apply orb_false_iff in Hq as [Hc Hpre].
    cbn [app]. rewrite !loop_cons by exact Hc.
    destruct (loop_case c db) as [r0 |]; [| reflexivity].
    unfold Run_seq. rewrite (IH Hpre).
    destruct (loop pre (db_after r0)) as [r1 |]; [| reflexivity].
    unfold Run_seq. cbn [db_after printed matched].
    destruct (loop post (db_after r1)) as [r2 |]; [| reflexivity].
    cbn [db_after printed matched]. now rewrite !app_assoc.
Qed.

(** A property of the database that every allowed command keeps is kept
    by the loop over allowed commands. *)
Lemma loop_invariant (I : Db -> Prop) (allowed : Command -> bool) :
  (forall c db r,
      allowed c = true -> loop_case c db = Some r -> I db ->
      I (db_after r)) ->
  forall input db r,
    forallb allowed input = true ->
    loop input db = Some r -> I db -> I (db_after r).
Proof.
  intros Hstep input.
  induction input as [| c input IH]; intros db r Hall Hrun Hdb.
  - injection Hrun as <-. exact Hdb.
  - cbn [forallb] in Hall. apply andb_true_iff in Hall as [Hc Hall].
    destruct (is_Key_q c) eqn:Hq.
    + destruct c; try discriminate. injection Hrun as <-. exact Hdb.
    + rewrite loop_cons in Hrun by exact Hq.
      destruct (loop_case c db) as [r0 |] eqn:E; [| discriminate].
      unfold Run_seq in Hrun.
      destruct (loop input (db_after r0)) as [r1 |] eqn:E1; [| discriminate].
      injection Hrun as <-. cbn [db_after].
      eapply IH; [exact Hall | exact E1 |]. eapply Hstep; eassumption.
Qed.

Lemma loop_case_Key_E (user_id : string) (session : EnrollSession)
    (db : Db) (r : Run) :
  loop_case (Key_E user_id session) db = Some r ->
  db_after r = db
  \/ exists fp,
       db_after r
       = StdMap.update user_id (enrolled fp) value_initialized db.
Proof.
  cbn [sample_loop_case]. unfold enroll_faceprints.
  destruct (enroll_status session) eqn:Es;
    [destruct (enroll_faceprints_ptr session) as [fp |] eqn:Ep | |].
  - rewrite enroll_as_update. intros [= <-]. right. now exists fp.
  - discriminate.
  - intros [= <-]. now left.
  - intros [= <-]. now left.
Qed.

Lemma loop_case_Key_A (session : AuthSession) (db : Db) (r : Run) :
  loop_case (Key_A session) db = Some r ->
  db_after r = db
  \/ exists fp, db_after r = db_after (scan fp db).
Proof.
  cbn [sample_loop_case]. unfold authenticate_faceprints.
  unfold FaceprintsAuthClbk_OnResult.
  destruct (auth_status session);
    [destruct (auth_faceprints_ptr session) as [fp |] | | | |];
    try discriminate; intros [= <-]; cbn [db_after]; auto.
  right. exists fp. now rewrite Faceprints_copy.
Qed.

(** X7.  With a matcher that keeps the original descriptor, the original
    descriptor stored for a user id is the same after any commands among
    which there is neither an enrollment of that user id nor a deletion:
    authentications, listings and enrollments of other users leave it. *)
Theorem origDescriptor_changes_only_by_enroll :
  keeps_origDescriptor MatchFaceprints ->
  forall (user_id : string) (input : list Command) (db : Db) (r : Run),
    forallb (fun c => negb (enrolls user_id c) && negb (is_Key_D c)) input
    = true ->
    loop input db = Some r ->
    option_map origDescriptor (StdMap.find user_id (db_after r))
    = option_map origDescriptor (StdMap.find user_id db).
Proof.
  intros Hkeep user_id input db r Hall Hrun.
  refine (loop_invariant
            (fun db' => option_map origDescriptor (StdMap.find user_id db')
                        = option_map origDescriptor (StdMap.find user_id db))
            _ _ input db Hall Hrun eq_refl).
  clear - Hkeep. intros c db0 r0 Hc Hcase Hdb0. rewrite <- Hdb0.
  apply andb_true_iff in Hc as [He Hd].
  apply negb_true_iff in He, Hd.
  destruct c as [u session | session | | | | key];
    try (injection Hcase as <-; reflexivity); try discriminate.
  - apply loop_case_Key_E in Hcase as [-> | [fp ->]]; [reflexivity |].
    cbn [enrolls] in He. apply String.eqb_neq in He.
    rewrite find_update_other by congruence. reflexivity.
  - apply loop_case_Key_A in Hcase as [-> | [fp ->]]; [reflexivity |].
    now apply scan_find_origDescriptor.
Qed.

Lemma scan_featuresType (fp : Faceprints) (db : Db) (ft : Z) :
  keeps_featuresType MatchFaceprints ->
  Forall (fun iter => featuresType (snd iter) = ft) db ->
  Forall (fun iter => featuresType (snd iter) = ft) (db_after (scan fp db)).
Proof.
  intros Hkeep.
  induction db as [| [u second] rest IH]; intro Hall;
    cbn [FaceprintsAuthClbk_scan]; [constructor |].
  pose proof (Forall_inv Hall) as Hhd. pose proof (Forall_inv_tail Hall) as Htl.
  cbn [snd] in Hhd.
  pose proof (Hkeep fp second) as Hk.
  destruct (MatchFaceprints fp second second) as [m upd]. cbn [snd] in Hk.
  destruct (success m); [destruct (should_update m) |]; cbn [db_after].
  - constructor; [cbn [snd]; congruence | exact Htl].
  - exact Hall.
  - constructor; [exact Hhd | now apply IH].
Qed.

(** X8.  With a matcher that keeps [featuresType], every template of the
    database carries the [featuresType] of a value-initialised
    [Faceprints], whatever commands were typed since the start of the
    program and whatever [featuresType] the device sent. *)
Theorem stored_featuresType_is_value_initialized :
  keeps_featuresType MatchFaceprints ->
  forall (input : list Command) (r : Run),
    loop input [] = Some r ->
    Forall (fun iter => featuresType (snd iter)
                        = featuresType value_initialized)
           (db_after r).
Proof.
  intros Hkeep input r Hrun.
  assert (Hall : forallb (fun _ : Command => true) input = true)
    by (clear; induction input; auto).
  refine (loop_invariant
            (Forall (fun iter => featuresType (snd iter)
                                 = featuresType value_initialized))
            _ _ input [] Hall Hrun (Forall_nil _)).
  clear - Hkeep. intros c db r _ Hcase Hdb.
  destruct c as [u session | session | | | | key];
    try (injection Hcase as <-; first [exact Hdb | constructor]).
  - apply loop_case_Key_E in Hcase as [-> | [fp ->]]; [exact Hdb |].
    apply (update_Forall
             (fun v => featuresType v = featuresType value_initialized));
      [intros v Hv; exact Hv | reflexivity | exact Hdb].
  - apply loop_case_Key_A in Hcase as [-> | [fp ->]]; [exact Hdb |].
    now apply scan_featuresType.
Qed.

Lemma loop_case_defined (c : Command) (db : Db) :
  command_valid c = true <-> loop_case c db <> None.
Proof.
  destruct c as [u session | session | | | | key];
    cbn [sample_loop_case command_valid];
    try (split; [discriminate | reflexivity]).
  - unfold enroll_faceprints, MyEnrollServerClbk_OnResult.
    destruct (enroll_status session);
      [destruct (enroll_faceprints_ptr session) | |];
      split; try discriminate; try reflexivity; congruence.
  - unfold authenticate_faceprints, FaceprintsAuthClbk_OnResult.
    destruct (auth_status session);
      [destruct (auth_faceprints_ptr session) | | | |];
      split; try discriminate; try reflexivity; congruence.
Qed.

(** X9.  Neither [OnResult] checks its faceprints pointer: the
    enrollment callback and the authentication callback dereference a
    null pointer exactly when the status is [Success] and the pointer is
    null; and a loop that has run through the commands before such a
    result, without quitting, fails at it. *)
Theorem sample_loop_null_faceprints :
  (forall (user_id : string) (status : EnrollStatus)
          (faceprints : option Faceprints) (db : Db),
      enroll_OnResult user_id status faceprints db = None
      <-> status = EnrollStatus_Success /\ faceprints = None)
  /\ (forall (last status : AuthenticateStatus)
             (faceprints : option Faceprints) (db : Db),
        auth_OnResult last status faceprints db = None
        <-> status = AuthenticateStatus_Success /\ faceprints = None)
  /\ (forall (pre post : list Command) (c : Command) (db : Db) (r0 : Run),
        existsb is_Key_q pre = false ->
        loop pre db = Some r0 ->
        command_valid c = false ->
        loop (pre ++ c :: post) db = None).
Proof.
  split; [| split].
  - intros user_id status faceprints db.
    unfold MyEnrollServerClbk_OnResult.
    destruct status; [destruct faceprints | |];
      split; try discriminate; try tauto;
      intros [H1 H2]; discriminate.
  - intros last status faceprints db.
    unfold FaceprintsAuthClbk_OnResult.
    destruct status; [destruct faceprints | | | |];
      split; try discriminate; try tauto;
      intros [H1 H2]; discriminate.
  - intros pre post c db r0 Hq Hpre Hc.
    rewrite loop_app by exact Hq. rewrite Hpre. unfold Run_seq.
    assert (Hcq : is_Key_q c = false) by (destruct c; auto; discriminate).
    rewrite loop_cons by exact Hcq.
    destruct (loop_case c (db_after r0)) as [r1 |] eqn:E; [| reflexivity].
    assert (Hne : loop_case c (db_after r0) <> None) by congruence.
    apply loop_case_defined in Hne. congruence.
Qed.

(** X10.  What happens after ['D'] does not depend on what was enrolled
    before: the database and the matcher calls are those of a program
    that starts with the commands typed after ['D']. *)
Theorem sample_loop_after_D :
  forall (pre post : list Command) (db : Db) (r0 : Run),
    existsb is_Key_q pre = false ->
    loop pre db = Some r0 ->
    loop (pre ++ Key_D :: post) db
    = match loop post [] with
      | None => None
      | Some r =>
          Some (mkRun (db_after r)
                      (printed r0 ++ Out_Faceprints_deleted :: printed r)
                      (matched r0 ++ matched r))
      end.
Proof.
  intros pre post db r0 Hq Hpre.
  rewrite loop_app by exact Hq. rewrite Hpre. unfold Run_seq.
  rewrite loop_cons by reflexivity.
  cbn [sample_loop_case]. unfold Run_seq, StdMap.clear.
  cbn [db_after printed matched].
  destruct (loop post []) as [r |]; reflexivity.
Qed.

(** X11.  Nothing typed after ['q'] has any effect. *)
Theorem sample_loop_stops_at_q :
  forall (pre post : list Command) (db : Db),
    loop (pre ++ Key_q :: post) db = loop pre db.
Proof.
  induction pre as [| c pre IH]; intros post db.
  - reflexivity.
  - cbn [app]. destruct (is_Key_q c) eqn:Hq.
    + destruct c; try discriminate. reflexivity.
    + rewrite !loop_cons by exact Hq.
      destruct (loop_case c db) as [r0 |]; [| reflexivity].
      unfold Run_seq. now rewrite IH.
Qed.

End MoreServerFacts.


(* ================================================================== *)
(** * Facts about [do_enroll] *)

Lemma erase_incl (x : FacePose) (s : StdSet.t) :
  forall q, In q (StdSet.erase x s) -> In q s.
Proof.
  induction s as [| y s IH]; cbn [StdSet.erase]; intros q Hin.
  - exact Hin.
  - destruct (StdSet.less x y); [exact Hin |].
    destruct (StdSet.less y x).
    + destruct Hin as [<- | Hin]; [now left | right; now apply IH].
    + now right.
Qed.

Lemma not_in_filter_erased (f : FacePose -> bool) (p : FacePose) :
  ~ In p (filter (fun q => f q && negb (FacePose_eqb q p)) canonical_poses).
Proof.
  intro Hin. apply filter_In in Hin as [_ H].
  apply andb_true_iff in H as [_ H]. apply negb_true_iff in H.
  assert (Hpp : FacePose_eqb p p = true) by now apply FacePose_eqb_eq.
  congruence.
Qed.

(** Guidance only names poses that were required when the calls began. *)
Lemma calls_guidance_required (calls : list EnrollCallback) :
  forall (self : MyEnrollClbk.t) (p : FacePose),
    In (Out_Please_Look_To_The p) (snd (MyEnrollClbk_calls calls self)) ->
    In p (MyEnrollClbk._poses_required self).
Proof.
  induction calls as [| c calls IH]; intros self p Hin;
    cbn [MyEnrollClbk_calls] in Hin.
  - destruct Hin.
  - destruct (MyEnrollClbk_call c self) as [self' out] eqn:Ec.
    destruct (MyEnrollClbk_calls calls self') as [self'' out'] eqn:Er.
    cbn [snd] in Hin. apply in_app_or in Hin as [Hin | Hin].
    + destruct c as [pose | hint | status]; cbn [MyEnrollClbk_call] in Ec.
      * unfold MyEnrollClbk.OnProgress in Ec. injection Ec as <- <-.
        destruct Hin as [Hin | Hin]; [discriminate |].
        destruct (StdSet.erase pose (MyEnrollClbk._poses_required self))
          as [| next rest] eqn:Ee; cbn in Hin; [destruct Hin |].
        destruct Hin as [[= <-] | []].
        apply (erase_incl pose). rewrite Ee. now left.
      * injection Ec as <- <-. destruct Hin as [Hin | []]. discriminate.
      * injection Ec as <- <-. destruct Hin as [Hin | []]. discriminate.
    + assert (Hin' : In p (MyEnrollClbk._poses_required self')).
      { apply IH. now rewrite Er. }
      destruct c as [pose | hint | status]; cbn [MyEnrollClbk_call] in Ec.
      * unfold MyEnrollClbk.OnProgress in Ec. injection Ec as <- _.
        now apply (erase_incl pose).
      * injection Ec as <- _. exact Hin'.
      * injection Ec as <- _. exact Hin'.
Qed.

Lemma calls_required_filter (calls : list EnrollCallback) :
  forall f : FacePose -> bool,
    MyEnrollClbk._poses_required
      (fst (MyEnrollClbk_calls calls
              (MyEnrollClbk.mk (filter f canonical_poses))))
    = filter (fun q => f q && negb (observed (poses_of calls) q))
             canonical_poses.
Proof.
  induction calls as [| c calls IH]; intro f; cbn [MyEnrollClbk_calls].
  - cbn [fst MyEnrollClbk._poses_required]. apply filter_ext. intro q.
    unfold observed; simpl. now rewrite andb_true_r.
  - destruct c as [pose | hint | status]; cbn [MyEnrollClbk_call].
    + unfold MyEnrollClbk.OnProgress.
      cbn [MyEnrollClbk._poses_required]. rewrite erase_filter.
      specialize (IH (fun q => f q && negb (FacePose_eqb q pose))).
      destruct (MyEnrollClbk_calls calls _) as [self'' out'].
      cbn [fst] in *. rewrite IH. apply filter_ext. intro q.
      unfold observed, poses_of. cbn [flat_map app existsb].
      rewrite negb_orb. now rewrite andb_assoc.
    + unfold MyEnrollClbk.OnHint. specialize (IH f).
      destruct (MyEnrollClbk_calls calls _) as [self'' out'].
      cbn [fst] in *. exact IH.
    + unfold MyEnrollClbk.OnResult. specialize (IH f).
      destruct (MyEnrollClbk_calls calls _) as [self'' out'].
      cbn [fst] in *. exact IH.
Qed.

Lemma calls_no_guidance_after_detect (calls : list EnrollCallback) :
  forall (f : FacePose -> bool) (out1 out2 : list Out) (p : FacePose),
    snd (MyEnrollClbk_calls calls
           (MyEnrollClbk.mk (filter f canonical_poses)))
    = out1 ++ Out_Detected_Pose p :: out2 ->
    ~ In (Out_Please_Look_To_The p) out2.
Proof.
  induction calls as [| c calls IH]; intros f out1 out2 p H;
    cbn [MyEnrollClbk_calls] in H.
  - destruct out1; discriminate.
  - destruct c as [pose | hint | status]; cbn [MyEnrollClbk_call] in H.
    + unfold MyEnrollClbk.OnProgress in H.
      cbn [MyEnrollClbk._poses_required] in H. rewrite erase_filter in H.
      pose proof (calls_guidance_required calls
                    (MyEnrollClbk.mk
                       (filter (fun q => f q && negb (FacePose_eqb q pose))
                               canonical_poses))) as Hlater.
      specialize (IH (fun q => f q && negb (FacePose_eqb q pose))).
      pose proof (not_in_filter_erased f pose) as Hgone.
      destruct (MyEnrollClbk_calls calls _) as [self'' out'].
      cbn [snd MyEnrollClbk._poses_required] in *.
      destruct (filter (fun q => f q && negb (FacePose_eqb q pose))
                       canonical_poses) as [| next rest];
        cbn [StdSet.empty StdSet.begin hd_error negb app] in H.
      * destruct out1 as [| o out1]; cbn [app] in H.
        -- injection H as -> <-. intro Hin. apply Hgone. now apply Hlater.
        -- injection H as _ H. now apply (IH out1).
      * destruct out1 as [| o out1]; cbn [app] in H.
        -- injection H as -> <-. intros [[= ->] | Hin]; apply Hgone.
           ++ now left.
           ++ now apply Hlater.
        -- injection H as _ H. destruct out1 as [| o' out1]; cbn [app] in H;
             [discriminate |].
           injection H as _ H. now apply (IH out1).
    + unfold MyEnrollClbk.OnHint in H. specialize (IH f).
      destruct (MyEnrollClbk_calls calls _) as [self'' out'].
      cbn [snd app] in *. destruct out1 as [| o out1]; cbn [app] in H;
        [discriminate |].
      injection H as _ H. now apply (IH out1).
    + unfold MyEnrollClbk.OnResult in H. specialize (IH f).
      destruct (MyEnrollClbk_calls calls _) as [self'' out'].
      cbn [snd app] in *. destruct out1 as [| o out1]; cbn [app] in H;
        [discriminate |].
      injection H as _ H. now apply (IH out1).
Qed.

Lemma split_before_tail (A : Type) (l t a b : list A) (x : A) :
  l ++ t = a ++ x :: b -> ~ In x t ->
  exists b', b = b' ++ t /\ l = a ++ x :: b'.
Proof.
  revert a. induction l as [| y l IH]; intros a H Hx; cbn [app] in H.
  - exfalso. apply Hx. rewrite H. apply in_or_app. right. now left.
  - destruct a as [| z a]; cbn [app] in H.
    + injection H as -> <-. exists l. now split.
    + injection H as -> H. destruct (IH a H Hx) as [b' [-> ->]].
      exists b'. now split.
Qed.

(** X13.  After [do_enroll] has printed that a pose was detected, it never
    again asks the user to look to that pose, whatever calls the library
    makes and in whatever order. *)
Theorem do_enroll_no_guidance_for_detected_pose :
  forall (calls : list EnrollCallback) (status : Status)
         (out1 out2 : list Out) (p : FacePose),
    do_enroll calls status = out1 ++ Out_Detected_Pose p :: out2 ->
    ~ In (Out_Please_Look_To_The p) out2.
Proof.
  intros calls status out1 out2 p H. unfold do_enroll in H.
  apply split_before_tail in H as [b' [-> H]].
  - intro Hin. apply in_app_or in Hin as [Hin | Hin].
    + revert Hin.
      apply (calls_no_guidance_after_detect calls (fun _ => true) out1).
      exact H.
    + destruct status; [destruct Hin | destruct Hin as [Hin | []]].
      discriminate.
  - destruct status; [intros [] | intros [Hin | []]]. discriminate.
Qed.

(** X14.  Hints and results do not touch the pose guidance: after any calls on
    a new callback object the poses still required are the canonical
    ones that [OnProgress] never reported, whatever the order and the
    repetitions. *)
Theorem MyEnrollClbk_required_after_calls :
  forall calls : list EnrollCallback,
    MyEnrollClbk._poses_required
      (fst (MyEnrollClbk_calls calls MyEnrollClbk.new))
    = filter (fun q => negb (existsb (FacePose_eqb q) (poses_of calls)))
             [Center; Left; Right].
Proof.
  intro calls.
  change MyEnrollClbk.new
    with (MyEnrollClbk.mk (filter (fun _ => true) canonical_poses)).
  now rewrite calls_required_filter.
Qed.

(* ================================================================== *)
(** * Facts about [ping_device] *)

Lemma ping_loop_all_ok (Ping : nat -> Status * Z) (todo : nat) :
  forall i,
    (forall j, (i <= j < i + todo)%nat -> fst (Ping j) = Status_Ok) ->
    ping_loop Ping i todo = List.map (ping_ok_line Ping) (seq i todo).
Proof.
  induction todo as [| todo IH]; intros i Hok; cbn [ping_loop seq List.map].
  - reflexivity.
  - pose proof (Hok i ltac:(lia)) as Hi. unfold ping_ok_line at 1.
    destruct (Ping i) as [status elapsed]. cbn [fst snd] in *. subst status.
    f_equal. apply IH. intros j Hj. apply Hok. lia.
Qed.

Lemma ping_loop_fails (Ping : nat -> Status * Z) (k : nat) :
  forall i todo,
    (k < todo)%nat ->
    (forall j, (i <= j < i + k)%nat -> fst (Ping j) = Status_Ok) ->
    fst (Ping (i + k)%nat) <> Status_Ok ->
    ping_loop Ping i todo
    = List.map (ping_ok_line Ping) (seq i k)
      ++ [Out_Ping (Z.of_nat (i + k) + 1) (fst (Ping (i + k)%nat))
                   (snd (Ping (i + k)%nat));
          Out_Ping_error].
Proof.
  induction k as [| k IH]; intros i todo Hlt Hok Hfail;
    (destruct todo as [| todo]; [lia |]); cbn [ping_loop seq List.map app].
  - rewrite Nat.add_0_r in *.
    destruct (Ping i) as [status elapsed]. cbn [fst snd] in *.
    destruct status; [contradiction | reflexivity].
  - pose proof (Hok i ltac:(lia)) as Hi. unfold ping_ok_line at 1.
    destruct (Ping i) as [status elapsed] eqn:Ei. cbn [fst snd] in *.
    subst status. f_equal.
    replace (i + S k)%nat with (S i + k)%nat in * by lia.
    apply IH; [lia | | exact Hfail]. intros j Hj. apply Hok. lia.
Qed.

Lemma ping_loop_bound (Ping : nat -> Status * Z) (todo : nat) :
  forall i, (List.length (pings (ping_loop Ping i todo)) <= todo)%nat.
Proof.
  induction todo as [| todo IH]; intro i; cbn [ping_loop].
  - cbn. lia.
  - destruct (Ping i) as [status elapsed]. cbn [pings filter List.length].
    destruct status; [specialize (IH (S i)); unfold pings in IH | cbn]; lia.
Qed.

(** X15.  When the device answers every ping with [Ok], [ping_device] sends
    exactly [iters] pings, numbered from 1, and prints no error. *)
Theorem ping_device_all_ok :
  forall (Ping : nat -> Status * Z) (iters : Z),
    1 <= iters ->
    (forall j, (j < Z.to_nat iters)%nat -> fst (Ping j) = Status_Ok) ->
    ping_device Status_Ok Ping iters
    = List.map (ping_ok_line Ping) (seq 0 (Z.to_nat iters)).
Proof.
  intros Ping iters Hiters Hok. unfold ping_device.
  destruct (iters <? 1) eqn:E; [apply Z.ltb_lt in E; lia |].
  apply ping_loop_all_ok. intros j Hj. apply Hok. lia.
Qed.

(** X16.  [ping_device] stops at the first ping the device does not answer with
    [Ok]: it prints that ping and "Ping error", and sends none of the
    remaining ones. *)
Theorem ping_device_stops_at_failure :
  forall (Ping : nat -> Status * Z) (iters : Z) (k : nat),
    (k < Z.to_nat iters)%nat ->
    (forall j, (j < k)%nat -> fst (Ping j) = Status_Ok) ->
    fst (Ping k) <> Status_Ok ->
    ping_device Status_Ok Ping iters
    = List.map (ping_ok_line Ping) (seq 0 k)
      ++ [Out_Ping (Z.of_nat k + 1) (fst (Ping k)) (snd (Ping k));
          Out_Ping_error].
Proof.
  intros Ping iters k Hk Hok Hfail. unfold ping_device.
  destruct (iters <? 1) eqn:E; [apply Z.ltb_lt in E; lia |].
  apply (@ping_loop_fails Ping k 0%nat (Z.to_nat iters) Hk);
    [| exact Hfail].
  intros j Hj. apply Hok. lia.
Qed.

(** X17.  [ping_device] never sends more than [iters] pings, and none at all
    when [iters] is below 1 or the connection fails. *)
Theorem ping_device_bound :
  forall (connect_status : Status) (Ping : nat -> Status * Z) (iters : Z),
    (List.length (pings (ping_device connect_status Ping iters))
     <= Z.to_nat iters)%nat
    /\ (iters < 1 -> ping_device connect_status Ping iters = [])
    /\ (connect_status <> Status_Ok ->
        pings (ping_device connect_status Ping iters) = []).
Proof.
  intros connect_status Ping iters. unfold ping_device.
  destruct (iters <? 1) eqn:E.
  - cbn. repeat split; lia.
  - apply Z.ltb_ge in E. split; [| split].
    + destruct connect_status; [apply ping_loop_bound | cbn; lia].
    + lia.
    + destruct connect_status; [contradiction | reflexivity].
Qed.

(* ================================================================== *)
(** * Facts about the ['s'] branch *)

Lemma prefix_iff (a b : string) :
  String.prefix a b = true <-> exists post, b = (a ++ post)%string.
Proof.
  revert b. induction a as [| c a IH]; intros [| d b]; cbn [String.prefix].
  - split; [intros _; now exists EmptyString | reflexivity].
  - split; [intros _; now exists (String d b) | reflexivity].
  - split; [discriminate | intros [post H]; discriminate].
  - destruct (ascii_dec c d) as [-> | Hne].
    + rewrite IH. split; intros [post H]; exists post.
      * cbn. now rewrite H.
      * cbn in H. now injection H.
    + split; [discriminate |]. intros [post H]. cbn in H.
      injection H as H _. now elim Hne.
Qed.

Lemma string_find_occurs (needle hay : string) :
  string_find needle hay <> None <-> occurs needle hay.
Proof.
  split.
  - induction hay as [| c hay IH]; cbn [string_find];
      destruct (String.prefix needle _) eqn:E.
    + intros _. apply prefix_iff in E as [post ->].
      now exists EmptyString, post.
    + intro H. now elim H.
    + intros _. apply prefix_iff in E as [post ->].
      now exists EmptyString, post.
    + intro H. destruct (string_find needle hay); [| now elim H].
      destruct IH as [pre [post ->]]; [discriminate |].
      now exists (String c pre), post.
  - intros [pre [post ->]]. induction pre as [| c pre IH].
    + assert (E : String.prefix needle (EmptyString ++ needle ++ post) = true)
        by (apply prefix_iff; now exists post).
      destruct (needle ++ post)%string eqn:Enp; cbn [append string_find] in *;
        rewrite E; discriminate.
    + cbn [append string_find].
      destruct (String.prefix needle _); [discriminate |].
      destruct (string_find needle (pre ++ needle ++ post));
        [discriminate | now elim IH].
Qed.

(** X18.  The ['s'] branch picks the security level by what the line contains,
    not by what it is: Medium when "med" occurs anywhere in it,
    RecognitionOnly when "rec" occurs and "med" does not, High for every
    other line; and the rotation is 180 degrees exactly when "180" occurs
    in the second line. *)
Theorem sample_loop_case_s_choice :
  forall sec_level rot_level : string,
    let config := sample_loop_case_s sec_level rot_level in
    (security_level config = SecurityLevel_Medium
     <-> occurs "med" sec_level)
    /\ (security_level config = SecurityLevel_RecognitionOnly
        <-> ~ occurs "med" sec_level /\ occurs "rec" sec_level)
    /\ (security_level config = SecurityLevel_High
        <-> ~ occurs "med" sec_level /\ ~ occurs "rec" sec_level)
    /\ (camera_rotation config = Rotation_180_Deg
        <-> occurs "180" rot_level).
Proof.
  intros sec_level rot_level config. subst config.
  unfold sample_loop_case_s.
  assert (Hdec : forall needle hay,
             match string_find needle hay with
             | Some _ => occurs needle hay
             | None => ~ occurs needle hay
             end).
  { intros needle hay. pose proof (string_find_occurs needle hay) as H.
    destruct (string_find needle hay).
    - apply H. discriminate.
    - intro Hocc. apply H in Hocc. now apply Hocc. }
  pose proof (Hdec "med"%string sec_level) as Hmed.
  pose proof (Hdec "rec"%string sec_level) as Hrec.
  pose proof (Hdec "180"%string rot_level) as Hrot. clear Hdec.
  destruct (string_find "med" sec_level) as [nm |];
    destruct (string_find "rec" sec_level) as [nr |];
    destruct (string_find "180" rot_level) as [n180 |];
    cbn [security_level camera_rotation];
    repeat split; intros; try discriminate; try tauto.
Qed.

(* ================================================================== *)
(** * More runs *)

Lemma demo_keeps_featuresType : keeps_featuresType demo_MatchFaceprints.
Proof. intros new existing. reflexivity. Qed.

(** "dave" and "bob" enrolled into the three-user database, in either
    order. *)
Lemma enroll_commute_witness :
  StdMap.ok demo_db = true
  /\ "dave" <> "bob"
  /\ exists r12 r21,
       sample_loop demo_MatchFaceprints demo_value_initialized
         [Key_E "dave" (demo_enroll 1 1); Key_E "bob" (demo_enroll 7 4)]
         demo_db = Some r12
       /\ sample_loop demo_MatchFaceprints demo_value_initialized
            [Key_E "bob" (demo_enroll 7 4); Key_E "dave" (demo_enroll 1 1)]
            demo_db = Some r21
       /\ db_after r12 = db_after r21.
Proof.
  split; [reflexivity |]. split; [discriminate |].
  destruct (@enroll_commute demo_value_initialized "dave" "bob"
              (demo_extracted 1 1) (demo_extracted 7 4) demo_db
              eq_refl ltac:(discriminate))
    as [r1 [r12 [r2 [r21 [E1 [E12 [E2 [E21 Heq]]]]]]]].
  do 2 eexists. split; [vm_compute; reflexivity |].
  split; [vm_compute; reflexivity |].
  cbn [db_after].
  vm_compute in E1. injection E1 as <-. vm_compute in E12.
  injection E12 as <-. vm_compute in E2. injection E2 as <-.
  vm_compute in E21. injection E21 as <-. exact Heq.
Defined.

(** A scan accepted for "bob" by a matcher that asks for no update. *)
Lemma auth_hit_without_update_witness :
  (forall iter,
      In iter [("alice", mkFaceprints 3 1 0 [5; 1] [5; 1])] ->
      success (verdict frozen_MatchFaceprints (demo_extracted 7 9)
                       (snd iter)) = false)
  /\ frozen_MatchFaceprints (demo_extracted 7 9)
       (mkFaceprints 3 1 0 [7; 2] [7; 2])
       (mkFaceprints 3 1 0 [7; 2] [7; 2])
     = (mkMatchResult true false, mkFaceprints 3 1 0 [7; 2] [7; 2])
  /\ exists r,
       FaceprintsAuthClbk_OnResult frozen_MatchFaceprints
         AuthenticateStatus_CameraStarted AuthenticateStatus_Success
         (Some (demo_extracted 7 9)) demo_db = Some r
       /\ db_after r = demo_db
       /\ auth_outcome (printed r) = Matched "bob" false.
Proof.
  assert (H1 : forall iter,
             In iter [("alice", mkFaceprints 3 1 0 [5; 1] [5; 1])] ->
             success (verdict frozen_MatchFaceprints (demo_extracted 7 9)
                              (snd iter)) = false).
  { intros iter [<- | []]. reflexivity. }
  split; [exact H1 |]. split; [reflexivity |].
  destruct (@auth_hit_without_update frozen_MatchFaceprints
              AuthenticateStatus_CameraStarted (demo_extracted 7 9)
              [("alice", mkFaceprints 3 1 0 [5; 1] [5; 1])]
              [("carol", mkFaceprints 3 1 0 [7; 3] [7; 3])]
              "bob" (mkFaceprints 3 1 0 [7; 2] [7; 2])
              (mkFaceprints 3 1 0 [7; 2] [7; 2]) H1 eq_refl)
    as [r [E [Hdb [Hout _]]]].
  exists r. split; [exact E |]. split; [exact Hdb | exact Hout].
Defined.

(** An authentication that updates "bob", an enrollment of "dave" and a
    listing: the original descriptor of "bob" is the one enrolled. *)
Lemma origDescriptor_changes_only_by_enroll_witness :
  keeps_origDescriptor demo_MatchFaceprints
  /\ exists r,
       sample_loop demo_MatchFaceprints demo_value_initialized
         [Key_A (demo_auth 7 9); Key_E "dave" (demo_enroll 1 1); Key_U]
         demo_db = Some r
       /\ option_map avgDescriptor (StdMap.find "bob" (db_after r))
          = Some [7; 9]
       /\ option_map origDescriptor (StdMap.find "bob" (db_after r))
          = option_map origDescriptor (StdMap.find "bob" demo_db).
Proof.
  split; [exact demo_keeps_origDescriptor |].
  eexists. split; [vm_compute; reflexivity |]. split; [reflexivity |].
  refine (@origDescriptor_changes_only_by_enroll
            demo_MatchFaceprints demo_value_initialized
            demo_keeps_origDescriptor "bob"
            [Key_A (demo_auth 7 9); Key_E "dave" (demo_enroll 1 1); Key_U]
            demo_db _ _ _).
  - reflexivity.
  - vm_compute; reflexivity.
Defined.

(** The device sends [featuresType] 1 with every extraction of the demo;
    the database only ever holds 0. *)
Lemma stored_featuresType_is_value_initialized_witness :
  keeps_featuresType demo_MatchFaceprints
  /\ exists r,
       sample_loop demo_MatchFaceprints demo_value_initialized demo_input []
       = Some r
       /\ List.map (fun iter => featuresType (snd iter)) (db_after r)
          = [0; 0]
       /\ Forall (fun iter => featuresType (snd iter)
                              = featuresType demo_value_initialized)
                 (db_after r).
Proof.
  split; [exact demo_keeps_featuresType |].
  eexists. split; [vm_compute; reflexivity |]. split; [reflexivity |].
  refine (@stored_featuresType_is_value_initialized
            demo_MatchFaceprints demo_value_initialized
            demo_keeps_featuresType demo_input _ _).
  vm_compute; reflexivity.
Defined.

(** A [Success] without faceprints, after a listing. *)
Lemma sample_loop_null_faceprints_witness :
  existsb is_Key_q [Key_U] = false
  /\ command_valid
       (Key_A (mkAuthSession [] AuthenticateStatus_Success None Status_Ok))
     = false
  /\ sample_loop demo_MatchFaceprints demo_value_initialized
       ([Key_U]
        ++ Key_A (mkAuthSession [] AuthenticateStatus_Success None Status_Ok)
           :: [Key_U]) demo_db
     = None.
Proof.
  split; [reflexivity |]. split; [reflexivity |].
  assert (E : exists r0,
             sample_loop demo_MatchFaceprints demo_value_initialized
               [Key_U] demo_db = Some r0)
    by (eexists; vm_compute; reflexivity).
  destruct E as [r0 E].
  exact (proj2 (proj2 (sample_loop_null_faceprints demo_MatchFaceprints
                         demo_value_initialized))
               [Key_U] [Key_U]
               (Key_A (mkAuthSession [] AuthenticateStatus_Success None
                                     Status_Ok))
               demo_db r0 eq_refl E eq_refl).
Defined.

(** Two enrollments, ['D'], one enrollment: as if only the last one had
    happened. *)
Lemma sample_loop_after_D_witness :
  existsb is_Key_q [Key_E "bob" (demo_enroll 7 2)] = false
  /\ exists r,
       sample_loop demo_MatchFaceprints demo_value_initialized
         ([Key_E "bob" (demo_enroll 7 2)]
          ++ Key_D :: [Key_E "alice" (demo_enroll 5 1)]) [] = Some r
       /\ StdMap.keys (db_after r) = ["alice"].
Proof.
  split; [reflexivity |].
  assert (E0 : exists r0,
             sample_loop demo_MatchFaceprints demo_value_initialized
               [Key_E "bob" (demo_enroll 7 2)] [] = Some r0)
    by (eexists; vm_compute; reflexivity).
  destruct E0 as [r0 E0].
  rewrite (@sample_loop_after_D demo_MatchFaceprints demo_value_initialized
             [Key_E "bob" (demo_enroll 7 2)]
             [Key_E "alice" (demo_enroll 5 1)] [] r0 eq_refl E0).
  eexists. split; [vm_compute; reflexivity |]. reflexivity.
Defined.

(** Two pings of a device that fails on the third. *)
Lemma ping_device_all_ok_witness :
  1 <= 2
  /\ ping_device Status_Ok demo_Ping 2
     = [Out_Ping 1 Status_Ok 3; Out_Ping 2 Status_Ok 4].
Proof.
  split; [lia |].
  rewrite (@ping_device_all_ok demo_Ping 2); [reflexivity | lia |].
  intros j Hj. change (Z.to_nat 2) with 2%nat in Hj.
  destruct j as [| [| j]]; [reflexivity | reflexivity | lia].
Defined.

(** Five pings asked of a device that fails on the third. *)
Lemma ping_device_stops_at_failure_witness :
  (2 < Z.to_nat 5)%nat
  /\ fst (demo_Ping 2) <> Status_Ok
  /\ ping_device Status_Ok demo_Ping 5
     = [Out_Ping 1 Status_Ok 3; Out_Ping 2 Status_Ok 4;
        Out_Ping 3 (Status_Error 1) 5; Out_Ping_error].
Proof.
  split; [vm_compute; lia |]. split; [discriminate |].
  rewrite (@ping_device_stops_at_failure demo_Ping 5 2);
    [reflexivity | vm_compute; lia | | discriminate].
  intros j Hj. destruct j as [| [| j]]; [reflexivity | reflexivity | lia].
Defined.

(** Left, a hint, Center, the result. *)
Lemma do_enroll_no_guidance_for_detected_pose_witness :
  do_enroll [Call_OnProgress Left; Call_OnHint EnrollStatus_CameraStarted;
             Call_OnProgress Center; Call_OnResult EnrollStatus_Success]
            Status_Ok
  = [] ++ Out_Detected_Pose Left
       :: [Out_Please_Look_To_The Center;
           Out_Hint EnrollStatus_CameraStarted;
           Out_Detected_Pose Center; Out_Please_Look_To_The Right;
           Out_Result EnrollStatus_Success]
  /\ ~ In (Out_Please_Look_To_The Left)
          [Out_Please_Look_To_The Center;
           Out_Hint EnrollStatus_CameraStarted;
           Out_Detected_Pose Center; Out_Please_Look_To_The Right;
           Out_Result EnrollStatus_Success].
Proof.
  split; [reflexivity |].
  exact (@do_enroll_no_guidance_for_detected_pose
           [Call_OnProgress Left; Call_OnHint EnrollStatus_CameraStarted;
            Call_OnProgress Center; Call_OnResult EnrollStatus_Success]
           Status_Ok [] _ Left eq_refl).
Defined.

(* ================================================================== *)
(** * Facts about the reading of lines *)

Section ReaderFacts.

Variable stoi : string -> StoiResult.
Variable RSID_SECURE : bool.
Variable RSID_PREVIEW : bool.

Local Abbreviation read := (read_lines stoi RSID_SECURE RSID_PREVIEW).
Local Abbreviation read1 := (read_line stoi RSID_SECURE RSID_PREVIEW).

(** A property of calls that holds of the calls of every single line
    holds of the calls of any lines. *)
Lemma read_lines_Forall (P : Request -> Prop) :
  (forall state line, Forall P (snd (read1 state line))) ->
  forall lines state, Forall P (snd (read state lines)).
Proof.
  intros Hline lines.
  induction lines as [| line lines IH]; intro state; cbn [read_lines].
  - constructor.
  - pose proof (Hline state line) as H1.
    destruct (read1 state line) as [state' requests].
    pose proof (IH state') as H2.
    destruct (read state' lines) as [state'' requests'].
    cbn [snd] in *. apply Forall_app. now split.
Qed.

Lemma switch_requests (key : ascii) :
  forall request,
    In request (snd (sample_loop_switch RSID_SECURE RSID_PREVIEW key)) ->
    request = Req_key key.
Proof.
  intros request Hin. unfold sample_loop_switch in Hin.
  destruct key as [[] [] [] [] [] [] [] []]; cbn [snd] in Hin;
    first
      [ contradiction
      | destruct Hin as [<- | []]; reflexivity
      | destruct RSID_SECURE;
        [destruct Hin as [<- | []]; reflexivity | contradiction]
      | destruct RSID_PREVIEW;
        [destruct Hin as [<- | []]; reflexivity | contradiction] ].
Qed.

Lemma c_str_empty (line : string) :
  c_str line = EmptyString
  <-> line = EmptyString \/ starts_with_NUL line = true.
Proof.
  destruct line as [| c line]; cbn [c_str starts_with_NUL].
  - split; [now left | reflexivity].
  - destruct (Ascii.eqb c Ascii.zero).
    + split; [now right | reflexivity].
    + split; [discriminate | intros [H | H]; discriminate].
Qed.

Lemma read_line_user_id (state : Reading) (line : string) :
  forall request user_id,
    In request (snd (read1 state line)) ->
    request_user_id request = Some user_id ->
    line <> EmptyString /\ user_id = c_str line.
Proof.
  intros request user_id Hin Hid.
  destruct state; cbn [read_line snd] in Hin.
  - destruct line as [| key [| c line]]; try destruct Hin.
    apply switch_requests in Hin. subst request. discriminate.
  - destruct line as [| c line]; [destruct Hin |].
    destruct Hin as [<- | []].
    split; [discriminate |]. destruct server_mode; now injection Hid.
  - destruct Hin.
  - destruct Hin as [<- | []]. discriminate.
  - destruct (stoi line) as [iters | |]; try destruct Hin.
    destruct (iters <? 0); [destruct Hin |].
    destruct Hin as [<- | []]. discriminate.
  - destruct Hin.
  - destruct Hin.
Qed.

(** A user id handed on is a typed line that was not empty, cut at its
    first NUL byte. *)
Lemma read_lines_user_id (lines : list string) :
  forall state request user_id,
    In request (snd (read state lines)) ->
    request_user_id request = Some user_id ->
    exists line,
      In line lines /\ line <> EmptyString /\ user_id = c_str line.
Proof.
  induction lines as [| line lines IH]; intros state request user_id Hin Hid;
    cbn [read_lines] in Hin; [destruct Hin |].
  pose proof (@read_line_user_id state line request user_id) as H1.
  destruct (read1 state line) as [state' requests].
  pose proof (IH state' request user_id) as H2.
  destruct (read state' lines) as [state'' requests'].
  cbn [snd] in *. apply in_app_or in Hin as [Hin | Hin].
  - destruct (H1 Hin Hid) as [Hne Hu]. exists line.
    split; [now left | now split].
  - destruct (H2 Hin Hid) as [l [Hl [Hne Hu]]]. exists l.
    split; [now right | now split].
Qed.

(** X19.  The user id handed to [do_enroll] and to [enroll_faceprints] is
    a typed line that was not empty, cut at its first NUL byte
    ([user_id.c_str()]); it is empty exactly when that line starts with a
    NUL byte, so the prompts, which test the whole line, do not keep the
    empty user id out. *)
Theorem read_lines_user_id_is_c_str :
  forall (state : Reading) (lines : list string),
    Forall (fun request =>
              forall user_id,
                request_user_id request = Some user_id ->
                exists line,
                  In line lines
                  /\ line <> EmptyString
                  /\ user_id = c_str line
                  /\ (user_id = EmptyString
                      <-> starts_with_NUL line = true))
           (snd (read_lines stoi RSID_SECURE RSID_PREVIEW state lines)).
Proof.
  intros state lines. apply Forall_forall. intros request Hin user_id Hid.
  destruct (read_lines_user_id lines state request Hin Hid)
    as [line [Hl [Hne ->]]].
  exists line. repeat split; try assumption.
  - intro H. apply c_str_empty in H as [H | H]; [contradiction | exact H].
  - intro H. apply c_str_empty. now right.
Qed.

(** X20.  [ping_device] is never called with a negative count: the ['x']
    branch asks again until [std::stoi] has given a count that is not
    negative. *)
Theorem read_lines_ping_count_not_negative :
  forall (state : Reading) (lines : list string),
    Forall (fun request => match request with
                           | Req_ping_device iters => 0 <= iters
                           | _ => True
                           end)
           (snd (read state lines)).
Proof.
  intros state lines. revert lines state. apply read_lines_Forall.
  intros state line. apply Forall_forall. intros request Hin.
  destruct state; cbn [read_line snd] in Hin.
  - destruct line as [| key [| c line]]; try destruct Hin.
    apply switch_requests in Hin. now subst request.
  - destruct line as [| c line]; [destruct Hin |].
    destruct Hin as [<- | []]. now destruct server_mode.
  - destruct Hin.
  - destruct Hin as [<- | []]. exact I.
  - destruct (stoi line) as [iters | |]; try destruct Hin.
    destruct (iters <? 0) eqn:E; [destruct Hin |].
    destruct Hin as [<- | []]. now apply Z.ltb_ge in E.
  - destruct Hin.
  - destruct Hin.
Qed.

(** X21.  A line typed at a prompt is taken as the answer to the prompt,
    not as a key: whatever is typed after ['E'], be it "q" or "D", the
    first line that is not empty is enrolled, cut at its first NUL byte,
    as a user id, and the tool is back at the menu; and lines typed at
    the menu that are not exactly one character long are skipped. *)
Theorem read_lines_prompt_and_menu :
  (forall (n : nat) (user_id : string) (lines : list string),
      user_id <> EmptyString ->
      read_lines stoi RSID_SECURE RSID_PREVIEW At_menu
        ("E"%string :: repeat EmptyString n ++ user_id :: lines)
      = let (state, requests) :=
          read_lines stoi RSID_SECURE RSID_PREVIEW At_menu lines in
        (state, Req_enroll_faceprints (c_str user_id) :: requests))
  /\ (forall (skipped lines : list string),
        Forall (fun line => String.length line <> 1%nat) skipped ->
        read_lines stoi RSID_SECURE RSID_PREVIEW At_menu (skipped ++ lines)
        = read_lines stoi RSID_SECURE RSID_PREVIEW At_menu lines).
Proof.
  split.
  - intros n user_id lines Hne. cbn [read_lines read_line sample_loop_switch].
    assert (Hprompt :
              read (Want_user_id true)
                   (repeat EmptyString n ++ user_id :: lines)
              = let (state, requests) := read At_menu lines in
                (state, Req_enroll_faceprints (c_str user_id) :: requests)).
    { induction n as [| n IHn]; cbn [repeat app read_lines read_line].
      - destruct user_id as [| c user_id]; [now elim Hne |].
        now destruct (read At_menu lines).
      - rewrite IHn. now destruct (read At_menu lines). }
    rewrite Hprompt. now destruct (read At_menu lines).
  - intros skipped lines Hall.
    induction Hall as [| line skipped Hline Hall IH]; cbn [app read_lines].
    + reflexivity.
    + assert (E : read1 At_menu line = (At_menu, [])).
      { destruct line as [| key [| c line]]; cbn [read_line];
          try reflexivity. now elim Hline. }
      rewrite E, IH. now destruct (read At_menu lines).
Qed.

End ReaderFacts.

(* ================================================================== *)
(** * Where the user ids of the database come from *)

Lemma keys_update_incl (V : Type) (k : string) (f : V -> V) (fresh : V)
    (m : StdMap.t V) :
  forall k', In k' (StdMap.keys (StdMap.update k f fresh m)) ->
             k' = k \/ In k' (StdMap.keys m).
Proof.
  unfold StdMap.keys.
  induction m as [| [k0 v0] m IH]; cbn [StdMap.update]; intros k' Hin.
  - destruct Hin as [<- | []]. now left.
  - destruct (String.compare k k0); cbn [List.map fst In] in *.
    + now right.
    + destruct Hin as [<- | Hin]; [now left | now right].
    + destruct Hin as [<- | Hin]; [right; now left |].
      destruct (IH k' Hin) as [-> | H]; [now left | right; now right].
Qed.

Lemma commands_of_Key_E (requests : list Request) :
  forall (enrollments : list EnrollSession)
         (authentications : list AuthSession)
         (user_id : string) (session : EnrollSession),
    In (Key_E user_id session)
       (commands_of requests enrollments authentications) ->
    In (Req_enroll_faceprints user_id) requests.
Proof.
  induction requests as [| request requests IH];
    intros enrollments authentications user_id session Hin;
    cbn [commands_of] in Hin; [destruct Hin |].
  destruct request as [u | u | config | iters | key].
  - destruct Hin as [Hin | Hin]; [discriminate |]. right. eapply IH, Hin.
  - destruct enrollments as [| s enrollments]; [destruct Hin |].
    destruct Hin as [[= <- _] | Hin]; [now left | right; eapply IH, Hin].
  - destruct Hin as [Hin | Hin]; [discriminate |]. right. eapply IH, Hin.
  - destruct Hin as [Hin | Hin]; [discriminate |]. right. eapply IH, Hin.
  - right.
    destruct key as [[] [] [] [] [] [] [] []]; cbn [commands_of] in Hin;
      first
        [ destruct Hin as [Hin | Hin]; [discriminate | eapply IH, Hin]
        | destruct authentications as [| s authentications];
          [destruct Hin
          | destruct Hin as [Hin | Hin]; [discriminate | eapply IH, Hin]] ].
Qed.

Section Provenance.

Variable MatchFaceprints :
  Faceprints -> Faceprints -> Faceprints -> MatchResult * Faceprints.
Variable value_initialized : Faceprints.

Local Abbreviation loop := (sample_loop MatchFaceprints value_initialized).
Local Abbreviation loop_case :=
  (sample_loop_case MatchFaceprints value_initialized).

Lemma loop_keys (input : list Command) :
  forall (db : Db) (r : Run),
    loop input db = Some r ->
    forall k, In k (StdMap.keys (db_after r)) ->
              In k (StdMap.keys db)
              \/ exists session, In (Key_E k session) input.
Proof.
  induction input as [| c input IH]; intros db r Hrun k Hin.
  - injection Hrun as <-. now left.
  - destruct (is_Key_q c) eqn:Hq.
    + destruct c; try discriminate. injection Hrun as <-. now left.
    + rewrite loop_cons in Hrun by exact Hq.
      destruct (loop_case c db) as [r0 |] eqn:E; [| discriminate].
      unfold Run_seq in Hrun.
      destruct (loop input (db_after r0)) as [r1 |] eqn:E1; [| discriminate].
      injection Hrun as <-. cbn [db_after] in Hin.
      destruct (IH _ _ E1 k Hin) as [Hk | [session Hs]];
        [| right; exists session; now right].
      destruct c as [u session | session | | | | key];
        try (injection E as <-; cbn [db_after] in Hk; now left);
        try discriminate.
      * apply loop_case_Key_E in E as [Heq | [fp Heq]]; rewrite Heq in Hk;
          [now left |].
        apply keys_update_incl in Hk as [-> | Hk]; [| now left].
        right. exists session. now left.
      * apply loop_case_Key_A in E as [Heq | [fp Heq]]; rewrite Heq in Hk;
          [now left |].
        rewrite scan_keys in Hk. now left.
Qed.

(** X12.  Every user id in the database was enrolled by an ['E'] command typed
    since the start of the program: authentications, listings and the
    device commands add none. *)
Theorem db_keys_were_enrolled :
  forall (input : list Command) (r : Run),
    loop input [] = Some r ->
    forall user_id,
      In user_id (StdMap.keys (db_after r)) ->
      exists session, In (Key_E user_id session) input.
Proof.
  intros input r Hrun user_id Hin.
  destruct (@loop_keys input [] r Hrun user_id Hin) as [[] | H]. exact H.
Qed.

(** X22.  From the lines typed to the database: as long as no typed
    line starts with a NUL byte the database never holds the empty user
    id, whatever is typed and whatever the device answers; and a line
    that starts with a NUL byte, typed at the prompt of ['E'], does enroll
    the empty user id. *)
Theorem database_empty_user_id_needs_NUL :
  (forall (stoi : string -> StoiResult) (RSID_SECURE RSID_PREVIEW : bool)
          (lines : list string) (enrollments : list EnrollSession)
          (authentications : list AuthSession) (r : Run),
      Forall (fun line => starts_with_NUL line = false) lines ->
      loop (commands_of
              (snd (read_lines stoi RSID_SECURE RSID_PREVIEW At_menu lines))
              enrollments authentications) [] = Some r ->
      ~ In EmptyString (StdMap.keys (db_after r)))
  /\ (forall (stoi : string -> StoiResult) (RSID_SECURE RSID_PREVIEW : bool)
             (advisories : list EnrollAdvisory) (fp : Faceprints)
             (returns : Status),
        exists r,
          loop (commands_of
                  (snd (read_lines stoi RSID_SECURE RSID_PREVIEW At_menu
                          ["E"%string; String Ascii.zero "abc"; "U"%string]))
                  [mkEnrollSession advisories EnrollStatus_Success (Some fp)
                                   returns] []) [] = Some r
          /\ StdMap.keys (db_after r) = [EmptyString]
          /\ listed (printed r) = [EmptyString]).
Proof.
  split.
  - intros stoi RSID_SECURE RSID_PREVIEW lines enrollments authentications r
           Hlines Hrun Hin.
    destruct (@loop_keys _ [] r Hrun _ Hin) as [[] | [session Hs]].
    apply commands_of_Key_E in Hs.
    destruct (read_lines_user_id stoi RSID_SECURE RSID_PREVIEW lines At_menu
                (Req_enroll_faceprints EmptyString) Hs eq_refl)
      as [line [Hl [Hne Hcut]]].
    symmetry in Hcut. apply c_str_empty in Hcut as [H | H];
      [contradiction |].
    rewrite Forall_forall in Hlines. specialize (Hlines line Hl). congruence.
  - intros stoi RSID_SECURE RSID_PREVIEW advisories fp returns.
    cbn [read_lines read_line sample_loop_switch c_str Ascii.eqb
         Ascii.zero Bool.eqb snd app commands_of].
    cbn [sample_loop sample_loop_case]. unfold enroll_faceprints.
    cbn [enroll_status enroll_faceprints_ptr enroll_advisories
         enroll_returns].
    rewrite enroll_as_update. cbn [StdMap.update]. unfold Run_seq.
    cbn [db_after printed matched].
    eexists. split; [reflexivity |]. cbn [db_after printed].
    split; [reflexivity |].
    unfold listed. rewrite !flat_map_app. cbn [flat_map app List.map fst].
    assert (Hadv : flat_map (fun o => match o with
                                      | Out_user user_id => [user_id]
                                      | _ => []
                                      end)
                     (List.map (MyEnrollServerClbk_advisory) advisories)
                   = []).
    { induction advisories as [| a l IHl]; [reflexivity |].
      cbn [List.map flat_map]. rewrite IHl. now destruct a. }
    rewrite Hadv. reflexivity.
Qed.

End Provenance.

(** "alice" is in the database of the demo because she was enrolled. *)
Lemma db_keys_were_enrolled_witness :
  exists r,
    sample_loop demo_MatchFaceprints demo_value_initialized demo_input []
    = Some r
    /\ In "alice"%string (StdMap.keys (db_after r))
    /\ exists session, In (Key_E "alice" session) demo_input.
Proof.
  assert (E : exists r,
             sample_loop demo_MatchFaceprints demo_value_initialized
               demo_input [] = Some r
             /\ StdMap.keys (db_after r) = ["alice"%string; "bob"%string])
    by (eexists; split; [vm_compute; reflexivity | reflexivity]).
  destruct E as [r [E Hkeys]]. exists r. split; [exact E |].
  assert (Hin : In "alice"%string (StdMap.keys (db_after r)))
    by (rewrite Hkeys; now left).
  split; [exact Hin |].
  exact (@db_keys_were_enrolled demo_MatchFaceprints demo_value_initialized
           demo_input r E "alice"%string Hin).
Defined.

(** ['E'], an empty line, "bob", a line that is no key, ['A'], ['U']. *)
Lemma database_empty_user_id_needs_NUL_witness :
  Forall (fun line => starts_with_NUL line = false)
         ["E"; EmptyString; "bob"; "xx"; "A"; "U"]%string
  /\ exists r,
       sample_loop demo_MatchFaceprints demo_value_initialized
         (commands_of
            (snd (read_lines demo_stoi false false At_menu
                    ["E"; EmptyString; "bob"; "xx"; "A"; "U"]%string))
            [demo_enroll 7 2] [demo_auth 7 9]) [] = Some r
       /\ StdMap.keys (db_after r) = ["bob"%string]
       /\ listed (printed r) = ["bob"%string]
       /\ ~ In EmptyString (StdMap.keys (db_after r)).
Proof.
  assert (Hlines : Forall (fun line => starts_with_NUL line = false)
                          ["E"; EmptyString; "bob"; "xx"; "A"; "U"]%string)
    by (repeat constructor).
  split; [exact Hlines |].
  assert (E : exists r,
             sample_loop demo_MatchFaceprints demo_value_initialized
               (commands_of
                  (snd (read_lines demo_stoi false false At_menu
                          ["E"; EmptyString; "bob"; "xx"; "A"; "U"]%string))
                  [demo_enroll 7 2] [demo_auth 7 9]) [] = Some r
             /\ StdMap.keys (db_after r) = ["bob"%string]
             /\ listed (printed r) = ["bob"%string])
    by (eexists; split; [vm_compute; reflexivity | split; reflexivity]).
  destruct E as [r [E [Hkeys Hlist]]]. exists r.
  split; [exact E |]. split; [exact Hkeys |]. split; [exact Hlist |].
  exact (proj1 (database_empty_user_id_needs_NUL demo_MatchFaceprints
                  demo_value_initialized)
               demo_stoi false false
               ["E"; EmptyString; "bob"; "xx"; "A"; "U"]%string
               [demo_enroll 7 2] [demo_auth 7 9] r Hlines E).
Defined.

(** "q" typed at the user id prompt is enrolled, not obeyed; "quit" typed
    at the menu is skipped. *)
Lemma read_lines_prompt_and_menu_witness :
  "q"%string <> EmptyString
  /\ Forall (fun line => String.length line <> 1%nat)
            ["quit"%string; EmptyString]
  /\ read_lines demo_stoi false false At_menu
       ("E" :: repeat EmptyString 2 ++ "q" :: ["U"])
     = (At_menu, [Req_enroll_faceprints "q"; Req_key "U"])
  /\ read_lines demo_stoi false false At_menu
       (["quit"; EmptyString] ++ ["D"])
     = (At_menu, [Req_key "D"]).
Proof.
  destruct (read_lines_prompt_and_menu demo_stoi false false)
    as [Hprompt Hmenu].
  split; [discriminate |].
  split; [repeat constructor; discriminate |].
  split.
  - rewrite (Hprompt 2%nat "q" ["U"]); [reflexivity |].
    discriminate.
  - rewrite (Hmenu ["quit"; EmptyString] ["D"]); [reflexivity |].
    repeat constructor; discriminate.
Defined.
